(** * YOLO label tools: a shallow embedding of [remap_yolo_labels.py] and
    [preview_labels.py], and the properties of their specification.

    Layout: the Python built-ins the scripts call ([Py]), the file system they
    run against ([FS]), the two scripts ([Remap], [Preview]) and their entry
    points ([RemapMain], [PreviewMain]), then the lemmas, and last the
    theorems of the specification. *)

From Stdlib Require Import ZArith QArith Qminmax Qfield List Ascii String Lia Bool Floats.
From stdpp Require Import base option list sorting gmap strings.

Local Open Scope Z_scope.

(** ** Python built-ins *)

Module Py.

(** A [str] is a sequence of code points; the model covers the code points
    below 256, one [ascii] each. *)
Definition text := list ascii.

Definition t (s : string) : text := list_ascii_of_string s.

(** [c.isspace()]: TAB, LF, VT, FF, CR, FS, GS, RS, US, SPACE, NEL, NBSP. *)
Definition isspace (c : ascii) : bool :=
  let n := N_of_ascii c in
  ((9 <=? n) && (n <=? 13) || (28 <=? n) && (n <=? 32) || (n =? 133) || (n =? 160))%N.

(** The line boundaries of [str.splitlines]: LF, VT, FF, CR, FS, GS, RS, NEL
    (US is white space but no line boundary). *)
Definition is_linebreak (c : ascii) : bool :=
  let n := N_of_ascii c in
  ((10 <=? n) && (n <=? 13) || (28 <=? n) && (n <=? 30) || (n =? 133))%N.

Definition is_empty (s : text) : bool :=
  match s with [] => true | _ :: _ => false end.

(** [s.lstrip()], [s.rstrip()], [s.strip()] *)
Fixpoint lstrip (s : text) : text :=
  match s with
  | [] => []
  | c :: s' => if isspace c then lstrip s' else s
  end.

Definition rstrip (s : text) : text := rev (lstrip (rev s)).

Definition strip (s : text) : text := rstrip (lstrip s).

(** Puts [c] in front of the first piece of [pieces]. *)
Definition cons_first (c : ascii) (pieces : list text) : list text :=
  match pieces with
  | [] => [[c]]
  | p :: ps => (c :: p) :: ps
  end.

(** [s.splitlines()]: a line ends at a line boundary, CR LF counts as one, and
    there is no empty last line after a final boundary. *)
Fixpoint splitlines (s : text) : list text :=
  match s with
  | [] => []
  | c :: s' =>
      if is_linebreak c then
        [] :: match s' with
              | d :: s'' =>
                  if ((N_of_ascii c =? 13) && (N_of_ascii d =? 10))%N
                  then splitlines s'' else splitlines s'
              | [] => []
              end
      else cons_first c (splitlines s')
  end.

Definition starts_token (s : text) : bool :=
  match s with
  | [] => false
  | d :: _ => negb (isspace d)
  end.

(** [s.split()]: the maximal runs of characters that are not white space. *)
Fixpoint split (s : text) : list text :=
  match s with
  | [] => []
  | c :: s' =>
      if isspace c then split s'
      else if starts_token s' then cons_first c (split s')
      else [c] :: split s'
  end.

(** [sep.join(parts)] *)
Fixpoint join (sep : text) (parts : list text) : text :=
  match parts with
  | [] => []
  | p :: ps =>
      match ps with
      | [] => p
      | _ :: _ => p ++ sep ++ join sep ps
      end
  end.

(** Decimal digits. *)
Definition is_digit (c : ascii) : bool :=
  let n := N_of_ascii c in ((48 <=? n) && (n <=? 57))%N.

Definition digit_val (c : ascii) : Z := Z.of_N (N_of_ascii c) - 48.

Definition digit_char (d : Z) : ascii := ascii_of_N (Z.to_N (d + 48)).

Definition is_underscore (c : ascii) : bool := (N_of_ascii c =? 95)%N.

(** The digit part of an integer literal: digits, with single underscores
    allowed between two digits. [after_digit] says the previous character was
    a digit; [acc] is the value read so far. *)
Fixpoint int_digits (acc : Z) (after_digit : bool) (s : text) : option Z :=
  match s with
  | [] => if after_digit then Some acc else None
  | c :: s' =>
      if is_digit c then int_digits (10 * acc + digit_val c) true s'
      else if is_underscore c && after_digit then int_digits acc false s'
      else None
  end.

(** [int(s)] for a [str]: white space around the literal is dropped, one sign
    is allowed; [None] stands for [ValueError]. (The interpreter's adjustable
    limit on the number of digits of a literal is no part of the model.) *)
Definition int (s : text) : option Z :=
  match strip s with
  | c :: r =>
      if (N_of_ascii c =? 45)%N then Z.opp <$> int_digits 0 false r
      else if (N_of_ascii c =? 43)%N then int_digits 0 false r
      else int_digits 0 false (c :: r)
  | [] => None
  end.

(** The decimal digits of a non-negative number, most significant first. The
    fuel counts the digits after the first; the binary length of [n] is always
    enough. *)
Fixpoint digits_of (fuel : nat) (n : Z) : text :=
  match fuel with
  | O => [digit_char (n mod 10)]
  | S fuel' =>
      if n <? 10 then [digit_char n]
      else digits_of fuel' (n / 10) ++ [digit_char (n mod 10)]
  end.

(** [str(n)] for an [int]. *)
Definition str (n : Z) : text :=
  if n <? 0 then t "-" ++ digits_of (Z.to_nat (Z.log2 (- n))) (- n)
  else digits_of (Z.to_nat (Z.log2 n)) n.

(** [l[i]] on a list: a negative index counts from the end; [None] stands for
    [IndexError]. *)
Definition getitem {A} (l : list A) (i : Z) : option A :=
  let n := Z.of_nat (length l) in
  let k := if i <? 0 then i + n else i in
  if (0 <=? k) && (k <? n) then l !! Z.to_nat k else None.

(** [l[:stop]]: a negative [stop] counts from the end, and the bounds are
    clipped to the list. *)
Definition slice_to {A} (l : list A) (stop : Z) : list A :=
  let n := Z.of_nat (length l) in
  let k := if stop <? 0 then Z.max 0 (stop + n) else Z.min stop n in
  take (Z.to_nat k) l.

(** [s.split(sep)] for a separator of one character: the pieces between its
    occurrences, the empty ones included; never an empty list. *)
Fixpoint split_on (sep : ascii) (s : text) : list text :=
  match s with
  | [] => [[]]
  | c :: s' =>
      if Ascii.eqb c sep then [] :: split_on sep s'
      else cons_first c (split_on sep s')
  end.

(** [s.rfind(c)] for one character: the index of its last occurrence; [None]
    stands for [-1]. *)
Fixpoint rfind (c : ascii) (s : text) : option nat :=
  match s with
  | [] => None
  | d :: s' =>
      match rfind c s' with
      | Some i => Some (S i)
      | None => if Ascii.eqb d c then Some O else None
      end
  end.

End Py.

(** ** Python's [float]

    The scripts compute on [float]s (binary64). Their arithmetic is written once
    over the operations below and read twice: in binary64, which is what the
    interpreter runs, and in exact rationals, which is what the specification's
    formulas mean "over rationals". *)

Module Num.
Import Py.

(** What [float()] reads from a [str] when it succeeds. *)
Inductive literal : Type :=
| LNan
| LInf (negative : bool)
| LDec (negative : bool) (mantissa : Z) (exp10 : Z).

Definition lower (c : ascii) : ascii :=
  let n := N_of_ascii c in
  if ((65 <=? n) && (n <=? 90))%N then ascii_of_N (n + 32) else c.

Definition starts_digit (s : text) : bool :=
  match s with
  | [] => false
  | d :: _ => is_digit d
  end.

(** A run of digits with single underscores between digits: the value
    (continuing [acc]), how many digits were read, and what follows the run. *)
Fixpoint digit_run (acc digits : Z) (after_digit : bool) (s : text)
  : option (Z * Z * text) :=
  match s with
  | [] => Some (acc, digits, [])
  | c :: s' =>
      if is_digit c then digit_run (10 * acc + digit_val c) (digits + 1) true s'
      else if is_underscore c then
        if after_digit && starts_digit s' then digit_run acc digits false s'
        else None
      else Some (acc, digits, s)
  end.

Definition take_sign (s : text) : bool * text :=
  match s with
  | c :: r =>
      if (N_of_ascii c =? 45)%N then (true, r)
      else if (N_of_ascii c =? 43)%N then (false, r)
      else (false, s)
  | [] => (false, [])
  end.

(** The exponent part: [e] or [E], a sign, at least one digit, then the end. *)
Definition exponent (s : text) : option Z :=
  match s with
  | [] => Some 0
  | c :: r =>
      if (N_of_ascii (lower c) =? 101)%N then
        let '(neg, r') := take_sign r in
        match digit_run 0 0 false r' with
        | Some (e, n, []) =>
            if n =? 0 then None else Some (if neg : bool then - e else e)
        | _ => None
        end
      else None
  end.

(** The grammar of [float(s)]: white space around, a sign, then [inf],
    [infinity], [nan] in any case, or digits with an optional point and an
    optional exponent, at least one digit before the exponent. *)
Definition read_literal (s : text) : option literal :=
  let '(neg, body) := take_sign (strip s) in
  let low := map lower body in
  if bool_decide (low = t "inf" ∨ low = t "infinity") then Some (LInf neg)
  else if bool_decide (low = t "nan") then Some LNan
  else
    '(ip, ni, r1) ← digit_run 0 0 false body;
    '(m, nf, r2) ← match r1 with
                   | c :: r =>
                       if (N_of_ascii c =? 46)%N then digit_run ip 0 false r
                       else Some (ip, 0, r1)
                   | [] => Some (ip, 0, [])
                   end;
    if ni + nf =? 0 then None
    else e ← exponent r2; Some (LDec neg m (e - nf)).

(** The operations of the scripts' arithmetic. *)
Class Arith (F : Type) : Type := {
  of_int : Z → option F;      (* an [int] used as a [float]; [None]: OverflowError *)
  of_literal : literal → option F;
  zero : F;                   (* [0.0] *)
  two : F;                    (* the [2] of [w / 2] *)
  add : F → F → F;
  sub : F → F → F;
  mul : F → F → F;
  div : F → F → F;            (* only ever called with divisor [two] *)
  lt : F → F → bool
}.

(** [float(s)]; [None] stands for [ValueError]. *)
Definition of_str {F} `{Arith F} (s : text) : option F :=
  read_literal s ≫= of_literal.

(** [max(a, b)] and [min(a, b)] of two arguments: the built-ins keep the first
    argument unless the second is strictly greater (smaller). *)
Definition max {F} `{Arith F} (a b : F) : F := if lt a b then b else a.
Definition min {F} `{Arith F} (a b : F) : F := if lt b a then b else a.

(** *** binary64 *)

(** [m * 10^e10], rounded to nearest-even. *)
Definition round_decimal (neg : bool) (m e10 : Z) : float :=
  match m with
  | Zpos p =>
      SF2Prim
        (if 0 <=? e10
         then binary_normalize prec emax ((if neg then - m else m) * 10 ^ e10) 0 false
         else SFdiv prec emax (S754_finite neg p 0)
                (S754_finite false (Z.to_pos (10 ^ (- e10))) 0))
  | _ => if neg then neg_zero else PrimFloat.zero
  end.

(** The conversion of an [int]: rounded to nearest-even, OverflowError past
    the largest finite value. *)
Definition binary64_of_int (n : Z) : option float :=
  match binary_normalize prec emax n 0 false with
  | S754_infinity _ => None
  | sf => Some (SF2Prim sf)
  end.

Definition binary64_of_literal (l : literal) : option float :=
  Some match l with
       | LNan => nan
       | LInf neg => if neg then neg_infinity else infinity
       | LDec neg m e10 => round_decimal neg m e10
       end.

#[export] Instance binary64 : Arith float := {|
  of_int := binary64_of_int;
  of_literal := binary64_of_literal;
  zero := PrimFloat.zero;
  two := PrimFloat.two;
  add := PrimFloat.add;
  sub := PrimFloat.sub;
  mul := PrimFloat.mul;
  div := PrimFloat.div;
  lt := PrimFloat.ltb
|}.

(** *** Exact rationals *)

Definition Q_of_literal (l : literal) : option Q :=
  match l with
  | LDec neg m e10 =>
      let v := if 0 <=? e10 then inject_Z (m * 10 ^ e10)
               else Qmake m (Z.to_pos (10 ^ (- e10))) in
      Some (if neg then Qopp v else v)
  | _ => None                 (* [inf] and [nan] are no rationals *)
  end.

Definition Q_lt (a b : Q) : bool :=
  match Qcompare a b with Lt => true | _ => false end.

#[export] Instance exact : Arith Q := {|
  of_int n := Some (inject_Z n);
  of_literal := Q_of_literal;
  zero := 0%Q;
  two := 2%Q;
  add := Qplus;
  sub := Qminus;
  mul := Qmult;
  div := Qdiv;
  lt := Q_lt
|}.

End Num.

(** ** Exceptions and results *)

(** The exceptions the two scripts can end with. The first group is raised by
    the scripts' own [raise] statements, the second by built-ins they call. *)
Inductive exn : Type :=
| UnknownClassId (path : string) (src_id : Z)      (* ValueError, remap_file *)
| MissingLabelsDir (labels_dir : string)           (* FileNotFoundError, remap_split *)
| NoImageFound (stem images_dir : string)          (* FileNotFoundError, find_image *)
| NoLabelFiles (labels_dir : string)               (* SystemExit, preview main *)
| IntLiteralError (token : Py.text)                (* ValueError of [int(s)] *)
| FloatLiteralError (token : Py.text)              (* ValueError of [float(s)] *)
| UnpackError (expected got : nat)                 (* ValueError of a tuple unpacking *)
| IndexError                                       (* [l[i]] out of range *)
| OverflowError                                    (* an [int] too large for a [float] *)
| ReadError (path : string).                       (* OSError of [read_text] *)

Inductive result (A : Type) : Type :=
| Ok (a : A)
| Raise (e : exn).
Arguments Ok {A} a.
Arguments Raise {A} e.

Definition text_string (s : Py.text) : string := string_of_list_ascii s.

(** The message of the exceptions the scripts raise themselves (their
    f-strings). *)
Definition message (e : exn) : option string :=
  match e with
  | UnknownClassId path src_id =>
      Some ("Label " +:+ path +:+ " contains unknown class id "
              +:+ text_string (Py.str src_id) +:+ ".")
  | MissingLabelsDir labels_dir =>
      Some ("Missing labels directory: " +:+ labels_dir)
  | NoImageFound stem images_dir =>
      Some ("No image file found for " +:+ stem +:+ " in " +:+ images_dir)
  | NoLabelFiles labels_dir =>
      Some ("No label files found in " +:+ labels_dir)
  | _ => None
  end.

(** ** The file system *)

Module FS.
Import Py.

(** Paths are strings. [dirs] gives, for every directory, the names of its
    entries in the order the operating system enumerates them; [files] gives,
    for every regular file, the text [read_text] returns for it; [writes]
    lists the paths handed to [write_text], oldest first (each one a rewrite
    and a new timestamp). *)
Record filesystem : Type := Filesystem {
  dirs : gmap string (list string);
  files : gmap string text;
  writes : list string
}.

(** [d / name] *)
Definition path_join (d name : string) : string := d +:+ "/" +:+ name.

Definition is_dir (fs : filesystem) (p : string) : bool :=
  bool_decide (is_Some (dirs fs !! p)).

Definition is_file (fs : filesystem) (p : string) : bool :=
  bool_decide (is_Some (files fs !! p)).

(** [p.exists()] *)
Definition path_exists (fs : filesystem) (p : string) : bool :=
  is_file fs p || is_dir fs p.

Definition endswith (name suffix : string) : bool :=
  bool_decide (list_ascii_of_string suffix `suffix_of` list_ascii_of_string name).

(** [d.glob("*.txt")]: the entries of [d] whose name ends in [.txt] (in this
    case of the letters), in the directory's own order; nothing when [d] is
    no directory. *)
Definition glob_txt (fs : filesystem) (d : string) : list string :=
  match dirs fs !! d with
  | Some names => path_join d <$> filter (λ n, endswith n ".txt" = true) names
  | None => []
  end.

(** [p.read_text()] *)
Definition read_text (fs : filesystem) (p : string) : result text :=
  match files fs !! p with
  | Some content => Ok content
  | None => Raise (ReadError p)
  end.

(** [p.write_text(content)] on a path whose directory entry exists already. *)
Definition write_text (p : string) (content : text) (fs : filesystem) : filesystem :=
  {| dirs := dirs fs; files := <[p := content]> (files fs); writes := writes fs ++ [p] |}.

End FS.

(** ** remap_yolo_labels.py *)

Module Remap.
Import Py FS.

(** The loop of [remap_file] over the lines read, with its two accumulators. *)
Fixpoint remap_lines (path : string) (mapping : gmap Z Z) (lines : list text)
    (changed : bool) (new_lines : list text) : result (bool * list text) :=
  match lines with
  | [] => Ok (changed, new_lines)
  | line :: rest =>
      if is_empty (strip line) then remap_lines path mapping rest changed new_lines
      else
        match split line with
        | [] => Raise IndexError
        | first :: coords =>
            match int first with
            | None => Raise (IntLiteralError first)
            | Some src_id =>
                match mapping !! src_id with
                | None => Raise (UnknownClassId path src_id)
                | Some dst_id =>
                    remap_lines path mapping rest
                      (if bool_decide (dst_id ≠ src_id) then true else changed)
                      (new_lines ++ [join (t " ") (str dst_id :: coords)])
                end
            end
        end
  end.

Definition newline : text := [ascii_of_nat 10].

(** [remap_file(path, mapping)]: the file system afterwards and the value
    returned or the exception raised. *)
Definition remap_file (path : string) (mapping : gmap Z Z) (fs : filesystem)
  : filesystem * result bool :=
  match read_text fs path with
  | Raise e => (fs, Raise e)
  | Ok content =>
      match remap_lines path mapping (splitlines (strip content)) false [] with
      | Raise e => (fs, Raise e)
      | Ok (changed, new_lines) =>
          if changed
          then (write_text path (join newline new_lines ++ newline) fs, Ok changed)
          else (fs, Ok changed)
      end
  end.

(** The loop of [remap_split] over the label files. *)
Fixpoint remap_each (label_files : list string) (mapping : gmap Z Z) (changes : Z)
    (fs : filesystem) : filesystem * result Z :=
  match label_files with
  | [] => (fs, Ok changes)
  | label_file :: rest =>
      match remap_file label_file mapping fs with
      | (fs', Ok changed) =>
          remap_each rest mapping (if changed then changes + 1 else changes) fs'
      | (fs', Raise e) => (fs', Raise e)
      end
  end.

Definition labels_dir_of (base_dir split : string) : string :=
  path_join (path_join base_dir split) "labels".

(** [remap_split(base_dir, split, mapping)] *)
Definition remap_split (base_dir split : string) (mapping : gmap Z Z)
    (fs : filesystem) : filesystem * result Z :=
  let labels_dir := labels_dir_of base_dir split in
  if is_dir fs labels_dir
  then remap_each (glob_txt fs labels_dir) mapping 0 fs
  else (fs, Raise (MissingLabelsDir labels_dir)).

End Remap.

(** ** preview_labels.py *)

Module Preview.
Import Py FS.

Definition DEFAULT_COLORS : list string :=
  ["#00274C"; "#FFCB05"; "#9A3324"; "#6DA34D"; "#6F1D77"; "#00A1DE"].

Section Boxes.
Context {F : Type} `{Num.Arith F}.

(** A label record: [(cls, cx, cy, w, h)]. *)
Definition label_record : Type := Z * F * F * F * F.

Definition float_of (token : text) : result F :=
  match Num.of_str token with
  | Some x => Ok x
  | None => Raise (FloatLiteralError token)
  end.

(** The loop of [parse_labels] over the lines read. *)
Fixpoint parse_lines (lines : list text) (boxes : list label_record)
  : result (list label_record) :=
  match lines with
  | [] => Ok boxes
  | line :: rest =>
      if is_empty line then parse_lines rest boxes
      else
        match split line with
        | [cls; cx; cy; w; h] =>
            match int cls with
            | None => Raise (IntLiteralError cls)
            | Some cls_id =>
                match float_of cx, float_of cy, float_of w, float_of h with
                | Ok fx, Ok fy, Ok fw, Ok fh =>
                    parse_lines rest (boxes ++ [(cls_id, fx, fy, fw, fh)])
                | Raise e, _, _, _ | Ok _, Raise e, _, _
                | Ok _, Ok _, Raise e, _ | Ok _, Ok _, Ok _, Raise e => Raise e
                end
            end
        | parts => Raise (UnpackError 5 (length parts))
        end
  end.

(** [parse_labels(path)] *)
Definition parse_labels (fs : filesystem) (path : string) : result (list label_record) :=
  match read_text fs path with
  | Raise e => Raise e
  | Ok content => parse_lines (splitlines (strip content)) []
  end.

(** [denorm_box(cx, cy, w, h, width, height)]; [width] and [height] are [int]s
    and enter the arithmetic as [float]s. *)
Definition denorm_box (cx cy w h : F) (width height : Z) : result (F * F * F * F) :=
  match Num.of_int width, Num.of_int height with
  | Some fwidth, Some fheight =>
      let x0 := Num.mul (Num.sub cx (Num.div w Num.two)) fwidth in
      let y0 := Num.mul (Num.sub cy (Num.div h Num.two)) fheight in
      let x1 := Num.mul (Num.add cx (Num.div w Num.two)) fwidth in
      let y1 := Num.mul (Num.add cy (Num.div h Num.two)) fheight in
      Ok (Num.max Num.zero x0, Num.max Num.zero y0,
          Num.min fwidth x1, Num.min fheight y1)
  | _, _ => Raise OverflowError
  end.

(** What [draw_boxes] hands to the drawing library for one record: the
    outline colour, the rectangle and the text of the tag. *)
Record annotation : Type := Annotation {
  colour : string;
  rectangle : F * F * F * F;
  tag : string
}.

(** [DEFAULT_COLORS[cls_id % len(DEFAULT_COLORS)]] *)
Definition colour_of (cls_id : Z) : result string :=
  match getitem DEFAULT_COLORS (cls_id mod Z.of_nat (length DEFAULT_COLORS)) with
  | Some c => Ok c
  | None => Raise IndexError
  end.

(** [class_names[cls_id] if cls_id < len(class_names) else f"id_{cls_id}"] *)
Definition label_of (class_names : list string) (cls_id : Z) : result string :=
  if cls_id <? Z.of_nat (length class_names) then
    match getitem class_names cls_id with
    | Some name => Ok name
    | None => Raise IndexError
    end
  else Ok ("id_" +:+ text_string (str cls_id)).

(** The loop of [draw_boxes] on an image of the given size. *)
Fixpoint draw_boxes (width height : Z) (labels : list label_record)
    (class_names : list string) : result (list annotation) :=
  match labels with
  | [] => Ok []
  | (cls_id, cx, cy, w, h) :: rest =>
      match colour_of cls_id with
      | Raise e => Raise e
      | Ok color =>
          match denorm_box cx cy w h width height with
          | Raise e => Raise e
          | Ok rect =>
              match label_of class_names cls_id with
              | Raise e => Raise e
              | Ok label =>
                  match draw_boxes width height rest class_names with
                  | Raise e => Raise e
                  | Ok drawn => Ok (Annotation color rect label :: drawn)
                  end
              end
          end
      end
  end.

End Boxes.

(** [find_image(images_dir, stem)] *)
Fixpoint first_existing (fs : filesystem) (images_dir stem : string)
    (exts : list string) : result string :=
  match exts with
  | [] => Raise (NoImageFound stem images_dir)
  | ext :: rest =>
      let candidate := path_join images_dir (stem +:+ ext) in
      if path_exists fs candidate then Ok candidate
      else first_existing fs images_dir stem rest
  end.

Definition find_image (fs : filesystem) (images_dir stem : string) : result string :=
  first_existing fs images_dir stem [".jpg"; ".jpeg"; ".png"].

(** [sorted(paths)]: paths of one directory compare as their names do,
    character by character. *)
Definition sorted (paths : list string) : list string :=
  merge_sort String.le paths.

Section Sampling.
(** The process-wide generator of the [random] module: its state, what
    [random.seed(a)] sets it to, and the draw [_randbelow(n)] that
    [random.shuffle] makes. *)
Variable rng : Type.
Variable seed_rng : Z → rng.
Variable randbelow : nat → rng → nat * rng.

(** [x[i], x[j] = x[j], x[i]] for indices in range. *)
Definition swap {A} (x : list A) (i j : nat) : list A :=
  match x !! i, x !! j with
  | Some a, Some b => <[j := a]> (<[i := b]> x)
  | _, _ => x
  end.

(** [random.shuffle(x)]: for [i] from [len(x) - 1] down to 1, swap [x[i]] with
    [x[randbelow(i + 1)]]. *)
Fixpoint shuffle_from {A} (i : nat) (x : list A) (g : rng) : list A * rng :=
  match i with
  | O => (x, g)
  | S i' =>
      let '(j, g') := randbelow (S i) g in
      shuffle_from i' (swap x i j) g'
  end.

Definition shuffle {A} (x : list A) (g : rng) : list A * rng :=
  shuffle_from (length x - 1) x g.

(** [pick_label_files(labels_dir, count, randomize)] with the generator's
    state before and after. *)
Definition pick_label_files (fs : filesystem) (labels_dir : string) (count : Z)
    (randomize : bool) (g : rng) : list string * rng :=
  let files := sorted (glob_txt fs labels_dir) in
  let '(files, g) := if randomize then shuffle files g else (files, g) in
  (slice_to files count, g).

(** The head of [main]: seed the generator, pick the label files, stop when
    there is none. *)
Definition main_selection (fs : filesystem) (base_dir split : string) (count : Z)
    (randomize : bool) (seed : Z) (g : rng) : result (list string) * rng :=
  let g := seed_rng seed in
  let labels_dir := path_join (path_join base_dir split) "labels" in
  let '(selected, g) := pick_label_files fs labels_dir count randomize g in
  match selected with
  | [] => (Raise (NoLabelFiles labels_dir), g)
  | _ :: _ => (Ok selected, g)
  end.

End Sampling.

End Preview.

(** ** remap_yolo_labels.py: the command line *)

Module RemapMain.
Import Py FS Remap.

(** What the argument parser gets from a [type=] function: the value, or the
    [ArgumentTypeError] it reports before the program does anything. *)
Inductive argument (A : Type) : Type :=
| Accepted (a : A)
| ArgumentTypeError (msg : string).
Arguments Accepted {A} a.
Arguments ArgumentTypeError {A} msg.

Definition invalid_mapping (value : text) : string :=
  "Invalid mapping '" +:+ text_string value
    +:+ "'. Expected format SRC:DST (e.g. 2:0).".

(** [parse_mapping_arg(value)]: the unpacking of [value.split(":")] into two
    names and both calls of [int] raise [ValueError], which becomes the
    [ArgumentTypeError]. *)
Definition parse_mapping_arg (value : text) : argument (Z * Z) :=
  match split_on ":" value with
  | [src; dst] =>
      match int src with
      | None => ArgumentTypeError (invalid_mapping value)
      | Some src_id =>
          match int dst with
          | None => ArgumentTypeError (invalid_mapping value)
          | Some dst_id => Accepted (src_id, dst_id)
          end
      end
  | _ => ArgumentTypeError (invalid_mapping value)
  end.

(** [dict(pairs)]: the pairs are entered in order. *)
Definition dict_of (pairs : list (Z * Z)) : gmap Z Z :=
  fold_left (λ m kv, <[kv.1 := kv.2]> m) pairs ∅.

(** The loop of [main] over the splits, with its counter. *)
Fixpoint remap_splits (base_dir : string) (splits : list string)
    (mapping : gmap Z Z) (touched : Z) (fs : filesystem) : filesystem * result Z :=
  match splits with
  | [] => (fs, Ok touched)
  | split :: rest =>
      match remap_split base_dir split mapping fs with
      | (fs', Ok changes) => remap_splits base_dir rest mapping (touched + changes) fs'
      | (fs', Raise e) => (fs', Raise e)
      end
  end.

(** [main()] once the arguments are parsed: the file system afterwards, and
    the line printed or the exception that ends the program. *)
Definition main (base_dir : string) (splits : list string) (pairs : list (Z * Z))
    (fs : filesystem) : filesystem * result string :=
  match remap_splits base_dir splits (dict_of pairs) 0 fs with
  | (fs', Ok touched) =>
      (fs', Ok ("Rewrote " +:+ text_string (str touched) +:+ " label files."))
  | (fs', Raise e) => (fs', Raise e)
  end.

End RemapMain.

(** ** preview_labels.py: the rendering loop *)

Module PreviewMain.
Import Py FS Preview.

(** [p.name]: what follows the last separator of the path. *)
Definition name_of (p : text) : text := List.last (split_on "/" p) [].

(** [p.stem] as pathlib computes it up to Python 3.12: the name without its
    last suffix, where a suffix starts at the last dot of the name unless that
    dot is the first or the last character. *)
Definition stem_of_name (name : text) : text :=
  match rfind "." name with
  | Some i =>
      if ((0 <? i) && (i <? length name - 1))%nat then take i name else name
  | None => name
  end.

Definition stem (p : string) : string :=
  text_string (stem_of_name (name_of (t p))).

Section Render.
Context {F : Type} `{Num.Arith F}.
(** The size of the image the drawing library decodes from a path. *)
Variable image_size : string → Z * Z.

(** One preview: the image read, the path written and what was drawn. *)
Record rendering : Type := Rendering {
  source_image : string;
  output_path : string;
  drawn : list (annotation (F:=F))
}.

(** [f"{label_path.stem}.jpg"] under the output directory. *)
Definition output_of (output_dir label_path : string) : string :=
  path_join output_dir (stem label_path +:+ ".jpg").

(** The loop of [main] over the selected label files: the previews written,
    in order, and how the loop ends. *)
Fixpoint render_each (fs : filesystem) (images_dir output_dir : string)
    (class_names : list string) (selected : list string)
  : list rendering * result unit :=
  match selected with
  | [] => ([], Ok ())
  | label_path :: rest =>
      match parse_labels fs label_path with
      | Raise e => ([], Raise e)
      | Ok boxes =>
          match find_image fs images_dir (stem label_path) with
          | Raise e => ([], Raise e)
          | Ok image_path =>
              let '(width, height) := image_size image_path in
              match draw_boxes width height boxes class_names with
              | Raise e => ([], Raise e)
              | Ok annotations =>
                  let '(later, r) :=
                    render_each fs images_dir output_dir class_names rest in
                  (Rendering image_path (output_of output_dir label_path) annotations
                     :: later, r)
              end
          end
      end
  end.

(** What [main] prints for a preview. *)
Definition printed_line (r : rendering) : string := "Wrote " +:+ output_path r.

Variable rng : Type.
Variable seed_rng : Z → rng.
Variable randbelow : nat → rng → nat * rng.

(** [main()] once the arguments are parsed. *)
Definition main (fs : filesystem) (base_dir split : string) (count : Z)
    (randomize : bool) (class_names : list string) (output_root : string)
    (seed : Z) (g : rng) : list rendering * result unit :=
  match main_selection rng seed_rng randbelow fs base_dir split count randomize seed g with
  | (Raise e, _) => ([], Raise e)
  | (Ok selected, _) =>
      render_each fs (path_join (path_join base_dir split) "images")
        (path_join output_root split) class_names selected
  end.

End Render.

End PreviewMain.

(** ** The vocabulary of the statements *)

Section Vocabulary.
Import Py FS Remap.

(** A token is a non-empty run of characters none of which is white space. *)
Definition token (s : text) : Prop :=
  s ≠ [] ∧ Forall (λ c, isspace c = false) s.

(** A blank line has white space only. *)
Definition blank (s : text) : bool := forallb isspace s.

(** A plain line is not empty and holds no line boundary. *)
Definition plain_line (l : text) : Prop :=
  l ≠ [] ∧ Forall (λ c, is_linebreak c = false) l.

(** A tidy line is plain and neither starts nor ends with white space: what
    [remap_file] writes, line by line. *)
Definition tidy (l : text) : Prop :=
  plain_line l ∧ starts_token l = true ∧ starts_token (rev l) = true.

Definition digit_step (a : Z) (c : ascii) : Z := 10 * a + digit_val c.

Definition natural_digits (n : Z) : text := digits_of (Z.to_nat (Z.log2 n)) n.

(** The lines of a label file that carry a record: the ones that are not
    blank. *)
Definition label_lines (content : text) : list text :=
  filter (λ l, blank l = false) (splitlines (strip content)).

(** The class ID of a line and its other tokens, as any reader of the format
    sees them. *)
Definition line_id (line : text) : option Z :=
  match split line with
  | first :: _ => int first
  | [] => None
  end.

Definition line_coords (line : text) : list text := tail (split line).

(** Where the mapping sends the class ID of a line. *)
Definition line_dst (mapping : gmap Z Z) (line : text) : option Z :=
  line_id line ≫= (mapping !!.).

(** The line [remap_file] writes for a line whose class ID is mapped. *)
Definition rewrite_line (mapping : gmap Z Z) (line : text) : option text :=
  dst ← line_dst mapping line; Some (join (t " ") (str dst :: line_coords line)).

(** The line's class ID is mapped to another one. *)
Definition moved (mapping : gmap Z Z) (line : text) : bool :=
  bool_decide (line_dst mapping line ≠ line_id line).

(** Every class ID of the file is a key of the mapping (and every record line
    starts with an integer). *)
Definition fully_mapped (mapping : gmap Z Z) (content : text) : Prop :=
  Forall (λ l, is_Some (line_dst mapping l)) (label_lines content).

(** Some class ID of the file is mapped to another one. *)
Definition needs_rewrite (mapping : gmap Z Z) (content : text) : bool :=
  existsb (moved mapping) (label_lines content).

(** What [remap_file] writes for a file whose record lines become [out]. *)
Definition written (out : list text) : text := join newline out ++ newline.

(** The label file at [p] holds mapped class IDs only. *)
Definition mapped_file (mapping : gmap Z Z) (fs : filesystem) (p : string) : Prop :=
  ∃ content, files fs !! p = Some content ∧ fully_mapped mapping content.

(** [remap_file] rewrites the file at [p]. *)
Definition file_moves (mapping : gmap Z Z) (fs : filesystem) (p : string) : bool :=
  match files fs !! p with
  | Some content => needs_rewrite mapping content
  | None => false
  end.

Definition rewritten_files (mapping : gmap Z Z) (fs : filesystem) (ps : list string) : list string :=
  filter (λ p, file_moves mapping fs p = true) ps.

(** The formulas of the specification for [denormalize], over rationals:
    [x0 = max(0, (cx - w/2) * W)], [x1 = min(W, (cx + w/2) * W)], and the same
    for [y0], [y1] with [cy], [h] and [H]. *)
Definition denormalize_formula (cx cy w h W H : Q) : Q * Q * Q * Q :=
  (Qmax 0 ((cx - w / 2) * W), Qmax 0 ((cy - h / 2) * H),
   Qmin W ((cx + w / 2) * W), Qmin H ((cy + h / 2) * H))%Q.

(** The larger and the smaller of two binary64 values by IEEE comparison; the
    first one when they are equal or unordered. *)
Definition float_max (a b : float) : float :=
  match PrimFloat.compare a b with FLt => b | _ => a end.

Definition float_min (a b : float) : float :=
  match PrimFloat.compare b a with FLt => b | _ => a end.

(** The same formulas in binary64, [W] and [H] already converted. *)
Definition denormalize_binary64 (cx cy w h W H : float)
  : float * float * float * float :=
  (float_max 0 ((cx - w / 2) * W), float_max 0 ((cy - h / 2) * H),
   float_min W ((cx + w / 2) * W), float_min H ((cy + h / 2) * H))%float.

(** Back from pixel corners to normalized centre and size, as the
    specification's round trip does it: [cx = (x0 + x1) / (2 W)],
    [w = (x1 - x0) / W], and the same for [cy], [h]. *)
Definition renormalize (corners : Q * Q * Q * Q) (W H : Q) : Q * Q * Q * Q :=
  let '(x0, y0, x1, y1) := corners in
  ((x0 + x1) / (2 * W), (y0 + y1) / (2 * H), (x1 - x0) / W, (y1 - y0) / H)%Q.

(** The path [find_image] tries for an extension. *)
Definition candidate (images_dir stem ext : string) : string :=
  path_join images_dir (stem +:+ ext).

(** A label file of one record: five tokens, single spaces, a newline. *)
Definition record_text (cls_id : Z) (cx cy w h : text) : text :=
  join (t " ") [str cls_id; cx; cy; w; h] ++ newline.

(** Two label records of which the second is the first with its class ID sent
    through the mapping; the four numbers are the same. *)
Definition relabelled {F : Type} (mapping : gmap Z Z) (b b' : Z * F * F * F * F) : Prop :=
  let '(cls, cx, cy, w, h) := b in
  let '(cls', cx', cy', w', h') := b' in
  mapping !! cls = Some cls' ∧ cx' = cx ∧ cy' = cy ∧ w' = w ∧ h' = h.

End Vocabulary.

(** ** The scenarios of the specification *)

Module Scenario.
Import Py FS.

(** One line of text and its newline. *)
Definition line (s : string) : text := t s ++ Remap.newline.

Definition labels_dir : string := "data/training/labels".
Definition page (name : string) : string := path_join labels_dir name.

(** Scenario A: one label file [2 0.5 0.5 0.2 0.2], mapping [{2: 0}]. *)
Definition mapping_A : gmap Z Z := {[ 2 := 0 ]}.
Definition fs_A : filesystem :=
  {| dirs := {[ labels_dir := ["page1.txt"] ]};
     files := {[ page "page1.txt" := line "2 0.5 0.5 0.2 0.2" ]};
     writes := [] |}.

(** Scenario B: one label file [0 0.5 0.5 0.2 0.2], mapping [{0: 0}]. *)
Definition mapping_B : gmap Z Z := {[ 0 := 0 ]}.
Definition fs_B : filesystem :=
  {| dirs := {[ labels_dir := ["page1.txt"] ]};
     files := {[ page "page1.txt" := line "0 0.5 0.5 0.2 0.2" ]};
     writes := [] |}.

(** Scenario C: a mapping over [{0, 1, 2}] and three label files, the second
    of which holds class ID 5 on its second record. *)
Definition mapping_C : gmap Z Z := {[ 0 := 1; 1 := 2; 2 := 0 ]}.
Definition content_C1 : text := line "2 0.5 0.5 0.2 0.2" ++ line "1 0.1 0.1 0.1 0.1".
Definition content_C2 : text :=
  line "0 0.5 0.5 0.2 0.2" ++ line "5 0.4 0.4 0.1 0.1" ++ line "2 0.3 0.3 0.1 0.1".
Definition content_C3 : text := line "1 0.5 0.5 0.2 0.2".
Definition fs_C : filesystem :=
  {| dirs := {[ labels_dir := ["page1.txt"; "page2.txt"; "README.md"; "page3.txt"] ]};
     files := {[ page "page1.txt" := content_C1;
                 page "page2.txt" := content_C2;
                 page "page3.txt" := content_C3 ]};
     writes := [] |}.

(** Scenario D: a validation split with three label files, enumerated out of
    order, and images in several formats. *)
Definition preview_labels_dir : string := "data/validation/labels".
Definition preview_images_dir : string := "data/validation/images".
Definition fs_D : filesystem :=
  {| dirs := {[ preview_labels_dir := ["c.txt"; "a.txt"; "b.txt"];
                preview_images_dir := ["a.jpg"; "a.png"; "b.png"] ]};
     files := {[ path_join preview_labels_dir "a.txt" := line "0 0.5 0.5 0.2 0.2";
                 path_join preview_labels_dir "b.txt" := line "1 0.5 0.5 0.2 0.2";
                 path_join preview_labels_dir "c.txt" := line "-1 0.5 0.5 0.2 0.2";
                 path_join preview_images_dir "a.jpg" := [];
                 path_join preview_images_dir "a.png" := [];
                 path_join preview_images_dir "b.png" := [] ]};
     writes := [] |}.

(** The same split as another enumeration order gives it. *)
Definition fs_D' : filesystem :=
  {| dirs := {[ preview_labels_dir := ["b.txt"; "c.txt"; "a.txt"] ]};
     files := files fs_D;
     writes := [] |}.

(** A label file with a line of two spaces between its two records. *)
Definition content_spaced : text :=
  line "0 0.5 0.5 0.2 0.2" ++ line "  " ++ line "1 0.5 0.5 0.2 0.2".
Definition fs_spaced : filesystem :=
  {| dirs := {[ preview_labels_dir := ["a.txt"] ]};
     files := {[ path_join preview_labels_dir "a.txt" := content_spaced ]};
     writes := [] |}.

(** [0.2] as binary64. *)
Definition one_fifth : float := 0x1.999999999999ap-3%float.

(** A stand-in for the generator of the [random] module: a linear
    congruential one. *)
Definition lcg_seed (a : Z) : Z := a mod 2 ^ 31.
Definition lcg_randbelow (n : nat) (g : Z) : nat * Z :=
  (Z.to_nat (g mod Z.of_nat n), (g * 1103515245 + 12345) mod 2 ^ 31).

End Scenario.

(** * Lemmas *)

(** ** Characters and strings *)

Section PyFacts.
Import Py.

Lemma linebreak_isspace c : is_linebreak c = true → isspace c = true.
Proof. destruct c as [[] [] [] [] [] [] [] []]; vm_compute; congruence. Qed.

Lemma digit_not_space c : is_digit c = true → isspace c = false.
Proof. destruct c as [[] [] [] [] [] [] [] []]; vm_compute; congruence. Qed.

Lemma digit_not_sign c :
  is_digit c = true → (N_of_ascii c =? 45)%N = false ∧ (N_of_ascii c =? 43)%N = false.
Proof. destruct c as [[] [] [] [] [] [] [] []]; vm_compute; intuition congruence. Qed.

Lemma lstrip_blank s : blank s = true → lstrip s = [].
Proof.
  induction s as [|c s IH]; simpl; [done|].
  intros [Hc Hs]%andb_prop. rewrite Hc. auto.
Qed.

Lemma lstrip_nil_blank s : lstrip s = [] → blank s = true.
Proof.
  induction s as [|c s IH]; simpl; [done|].
  destruct (isspace c); [auto | done].
Qed.

Lemma lstrip_app_keep s r :
  lstrip s ≠ [] → lstrip (s ++ r) = lstrip s ++ r.
Proof.
  induction s as [|c s IH]; simpl; [done|].
  destruct (isspace c); auto.
Qed.

Lemma blank_rev s : blank (rev s) = blank s.
Proof.
  unfold blank. induction s as [|c s IH]; simpl; [done|].
  rewrite forallb_app, IH. simpl. rewrite andb_true_r. apply andb_comm.
Qed.

Lemma strip_empty_blank s : is_empty (strip s) = blank s.
Proof.
  unfold strip, rstrip. destruct (blank s) eqn:Hb.
  - rewrite (lstrip_blank s Hb). done.
  - destruct (rev (lstrip (rev (lstrip s)))) as [|c r] eqn:Hr; [|done].
    apply (f_equal (@rev _)) in Hr. rewrite rev_involutive in Hr. simpl in Hr.
    apply lstrip_nil_blank in Hr. rewrite blank_rev in Hr.
    apply lstrip_blank in Hr.
    assert (lstrip (lstrip s) = lstrip s) as Hi.
    { clear. induction s as [|c s IH]; simpl; [done|].
      destruct (isspace c) eqn:Hc; [done|]. simpl. by rewrite Hc. }
    rewrite Hi in Hr. apply lstrip_nil_blank in Hr. congruence.
Qed.

Lemma lstrip_start c s : isspace c = false → lstrip (c :: s) = c :: s.
Proof. intros Hc. simpl. by rewrite Hc. Qed.

Lemma rstrip_end s c : isspace c = false → rstrip (s ++ [c]) = s ++ [c].
Proof.
  intros Hc. unfold rstrip. rewrite rev_app_distr. simpl. rewrite Hc.
  simpl. by rewrite rev_involutive.
Qed.

(** A text that starts and ends with a character that is no white space is
    its own [strip]. *)
Lemma strip_id s :
  starts_token s = true → starts_token (rev s) = true → strip s = s.
Proof.
  intros Hs He. unfold strip.
  destruct s as [|c s]; [done|]. simpl in Hs. apply negb_true_iff in Hs.
  rewrite (lstrip_start _ _ Hs).
  destruct (rev (c :: s)) as [|d r] eqn:Hr; [done|].
  simpl in He. apply negb_true_iff in He.
  apply (f_equal (@rev _)) in Hr. rewrite rev_involutive in Hr. simpl in Hr.
  rewrite Hr. by apply rstrip_end.
Qed.

Lemma split_blank s : blank s = true → split s = [].
Proof.
  induction s as [|c s IH]; simpl; [done|].
  intros [Hc Hs]%andb_prop. rewrite Hc. auto.
Qed.

Lemma split_nil_blank s : split s = [] → blank s = true.
Proof.
  induction s as [|c s IH]; simpl; [done|].
  destruct (isspace c); [auto|].
  destruct (starts_token s); [|done].
  destruct (split s); done.
Qed.

(** The two tests of the loops agree: a line whose [strip] is not empty has a
    first token. *)
Lemma split_strip_nonempty s : is_empty (strip s) = false → split s ≠ [].
Proof.
  rewrite strip_empty_blank. intros Hb Hs.
  apply split_nil_blank in Hs. congruence.
Qed.

Lemma split_cons c s :
  split (c :: s) =
  if isspace c then split s
  else if starts_token s then cons_first c (split s) else [c] :: split s.
Proof. done. Qed.

Lemma split_token_app tok rest :
  token tok → starts_token rest = false → split (tok ++ rest) = tok :: split rest.
Proof.
  intros [Hne Hall] Hrest. induction tok as [|c tok IH]; [done|].
  inversion Hall as [|? ? Hc Htl]; subst.
  rewrite <- app_comm_cons, split_cons, Hc.
  destruct tok as [|d tok].
  - simpl app. by rewrite Hrest.
  - inversion Htl as [|? ? Hd ?]; subst.
    replace (starts_token ((d :: tok) ++ rest)) with true
      by (simpl; by rewrite Hd).
    rewrite IH; done.
Qed.

Lemma split_token tok : token tok → split tok = [tok].
Proof.
  intros Ht. rewrite <- (app_nil_r tok) at 1.
  by rewrite split_token_app.
Qed.

Lemma join_cons sep p q ps :
  join sep (p :: q :: ps) = p ++ sep ++ join sep (q :: ps).
Proof. done. Qed.

Lemma split_join parts :
  Forall token parts → split (join (t " ") parts) = parts.
Proof.
  induction 1 as [|p ps Hp Hps IH]; [done|].
  destruct ps as [|q ps].
  - by apply split_token.
  - rewrite join_cons, split_token_app; [|done|done].
    change (t " " ++ ?r) with (" "%char :: r).
    rewrite split_cons. change (isspace " ") with true. cbv iota.
    by rewrite IH.
Qed.

Lemma cons_first_tokens c l :
  isspace c = false → Forall token l → Forall token (cons_first c l).
Proof.
  intros Hc Hl. destruct l as [|p ps]; simpl.
  - repeat constructor; done.
  - inversion Hl as [|? ? [Hne Hp] Hps]; subst. constructor; [|done].
    split; [done|]. by constructor.
Qed.

Lemma split_tokens s : Forall token (split s).
Proof.
  induction s as [|c s IH]; simpl; [constructor|].
  destruct (isspace c) eqn:Hc; [done|].
  destruct (starts_token s).
  - by apply cons_first_tokens.
  - constructor; [|done]. split; [done|]. by repeat constructor.
Qed.

End PyFacts.

Section LineFacts.
Import Py.

Lemma splitlines_cons c s :
  is_linebreak c = false → splitlines (c :: s) = cons_first c (splitlines s).
Proof. intros Hc. simpl. by rewrite Hc. Qed.

Lemma splitlines_newline s : splitlines (Remap.newline ++ s) = [] :: splitlines s.
Proof. destruct s; done. Qed.

Lemma splitlines_line_app l rest :
  Forall (λ c, is_linebreak c = false) l →
  splitlines (l ++ Remap.newline ++ rest) = l :: splitlines rest.
Proof.
  induction 1 as [|c l Hc Hl IH].
  - apply splitlines_newline.
  - rewrite <- app_comm_cons, splitlines_cons, IH; done.
Qed.

Lemma splitlines_plain l : plain_line l → splitlines l = [l].
Proof.
  intros [Hne Hall]. induction Hall as [|c l Hc Hl IH]; [done|].
  rewrite splitlines_cons by done.
  destruct l as [|d l]; [done|]. rewrite IH; done.
Qed.

Lemma splitlines_join lines :
  Forall plain_line lines → splitlines (join Remap.newline lines) = lines.
Proof.
  induction 1 as [|l ls Hl Hls IH]; [done|].
  destruct ls as [|l' ls].
  - by apply splitlines_plain.
  - rewrite join_cons, splitlines_line_app, IH; [done|apply Hl].
Qed.

(** A token holds no line boundary. *)
Lemma token_plain s : token s → plain_line s.
Proof.
  intros [Hne Hall]. split; [done|].
  eapply Forall_impl; [exact Hall|]. intros c Hc. simpl in Hc.
  destruct (is_linebreak c) eqn:Hl; [|done].
  apply linebreak_isspace in Hl. congruence.
Qed.

(** Tokens joined by single spaces: a plain line that starts and ends with a
    character that is no white space. *)
Lemma join_tokens_nonempty parts :
  parts ≠ [] → Forall token parts → join (t " ") parts ≠ [].
Proof.
  intros Hne Hall. destruct Hall as [|p ps [Hp _] _]; [done|].
  destruct ps; simpl; [done|]. destruct p; done.
Qed.

Lemma join_tokens_plain parts :
  parts ≠ [] → Forall token parts → plain_line (join (t " ") parts).
Proof.
  intros Hne Hall. split; [by apply join_tokens_nonempty|].
  clear Hne. induction Hall as [|p ps Hp Hps IH]; [constructor|].
  destruct ps as [|q ps].
  - apply token_plain, Hp.
  - rewrite join_cons. apply Forall_app. split; [apply token_plain, Hp|].
    apply Forall_app. split; [|done]. by repeat constructor.
Qed.

Lemma join_tokens_starts parts :
  parts ≠ [] → Forall token parts → starts_token (join (t " ") parts) = true.
Proof.
  intros Hne Hall. destruct Hall as [|p ps [Hp Hc] _]; [done|].
  destruct p as [|c p]; [done|]. inversion Hc; subst.
  destruct ps; simpl; by apply negb_true_iff.
Qed.

Lemma starts_token_rev_snoc s c :
  isspace c = false → starts_token (rev (s ++ [c])) = true.
Proof. intros Hc. rewrite rev_app_distr. simpl. by rewrite Hc. Qed.

Lemma token_ends p : token p → starts_token (rev p) = true.
Proof.
  intros [Hne Hall]. destruct (rev p) as [|d r] eqn:Hr.
  - apply (f_equal (@rev _)) in Hr. rewrite rev_involutive in Hr. done.
  - simpl. apply negb_true_iff.
    assert (d ∈ p) as Hin.
    { apply elem_of_reverse. unfold reverse. rewrite <- rev_alt, Hr. left. }
    rewrite Forall_forall in Hall. by apply Hall.
Qed.

Lemma starts_token_rev_app s r :
  starts_token (rev r) = true → starts_token (rev (s ++ r)) = true.
Proof.
  intros Hr. rewrite rev_app_distr. destruct (rev r); [done|]. done.
Qed.

Lemma join_tokens_ends parts :
  parts ≠ [] → Forall token parts → starts_token (rev (join (t " ") parts)) = true.
Proof.
  intros Hne Hall. induction Hall as [|p ps Hp Hps IH]; [done|].
  destruct ps as [|q ps].
  - by apply token_ends.
  - rewrite join_cons, app_assoc. apply starts_token_rev_app. by apply IH.
Qed.

Lemma join_tokens_not_blank parts :
  parts ≠ [] → Forall token parts → blank (join (t " ") parts) = false.
Proof.
  intros Hne Hall. pose proof (join_tokens_starts _ Hne Hall) as Hs.
  destruct (join (t " ") parts) as [|c r]; [done|].
  simpl in *. apply negb_true_iff in Hs. by rewrite Hs.
Qed.

End LineFacts.

Section WrittenText.
Import Py.

Lemma join_tokens_tidy parts :
  parts ≠ [] → Forall token parts → tidy (join (t " ") parts).
Proof.
  intros Hne Hall. split; [|split].
  - by apply join_tokens_plain.
  - by apply join_tokens_starts.
  - by apply join_tokens_ends.
Qed.

Lemma tidy_not_blank l : tidy l → blank l = false.
Proof.
  intros (_ & Hs & _). destruct l as [|c l]; [done|].
  simpl in *. apply negb_true_iff in Hs. by rewrite Hs.
Qed.

Lemma join_lines_starts lines :
  lines ≠ [] → Forall tidy lines → starts_token (join Remap.newline lines) = true.
Proof.
  intros Hne Hall. destruct Hall as [|l ls (_ & Hs & _) _]; [done|].
  destruct ls; [done|]. rewrite join_cons. destruct l; done.
Qed.

Lemma join_lines_ends lines :
  lines ≠ [] → Forall tidy lines →
  starts_token (rev (join Remap.newline lines)) = true.
Proof.
  intros Hne Hall. induction Hall as [|l ls Hl Hls IH]; [done|].
  destruct ls as [|l' ls].
  - apply Hl.
  - rewrite join_cons, app_assoc. apply starts_token_rev_app. by apply IH.
Qed.

(** Reading back what was written: [strip] drops the final newline only. *)
Lemma strip_written lines :
  lines ≠ [] → Forall tidy lines →
  strip (join Remap.newline lines ++ Remap.newline) = join Remap.newline lines.
Proof.
  intros Hne Hall.
  pose proof (join_lines_starts _ Hne Hall) as Hs.
  pose proof (join_lines_ends _ Hne Hall) as He.
  destruct (join Remap.newline lines) as [|c x]; [done|].
  simpl in Hs. apply negb_true_iff in Hs.
  unfold strip. rewrite <- app_comm_cons, (lstrip_start _ _ Hs), app_comm_cons.
  unfold rstrip. rewrite rev_app_distr.
  change (rev Remap.newline) with Remap.newline.
  change (Remap.newline ++ ?r) with (ascii_of_nat 10 :: r).
  change (lstrip (ascii_of_nat 10 :: ?r)) with (lstrip r).
  destruct (rev (c :: x)) as [|d r] eqn:Hr; [done|].
  simpl in He. apply negb_true_iff in He.
  rewrite (lstrip_start _ _ He), <- Hr. apply rev_involutive.
Qed.

Lemma splitlines_written lines :
  lines ≠ [] → Forall tidy lines →
  splitlines (strip (join Remap.newline lines ++ Remap.newline)) = lines.
Proof.
  intros Hne Hall. rewrite strip_written by done.
  apply splitlines_join. eapply Forall_impl; [exact Hall|]. by intros l [? _].
Qed.

End WrittenText.

Section IntFacts.
Import Py.

Lemma int_digits_all acc b ds :
  Forall (λ c, is_digit c = true) ds → ds ≠ [] ∨ b = true →
  int_digits acc b ds = Some (fold_left digit_step ds acc).
Proof.
  intros Hall. revert acc b. induction Hall as [|c ds Hc Hds IH]; intros acc b Hne.
  - destruct Hne as [Hne| ->]; done.
  - simpl. rewrite Hc. apply IH. by right.
Qed.

Lemma digit_char_cases d :
  0 <= d <= 9 →
  is_digit (digit_char d) = true ∧ digit_val (digit_char d) = d.
Proof.
  intros Hd.
  assert (d = 0 ∨ d = 1 ∨ d = 2 ∨ d = 3 ∨ d = 4 ∨ d = 5 ∨ d = 6 ∨ d = 7
          ∨ d = 8 ∨ d = 9) as Hcases by lia.
  repeat (destruct Hcases as [->|Hcases]; [done|]). by subst.
Qed.

Lemma digits_of_digits fuel n :
  0 <= n → Forall (λ c, is_digit c = true) (digits_of fuel n).
Proof.
  revert n. induction fuel as [|fuel IH]; intros n Hn; simpl.
  - repeat constructor. apply digit_char_cases.
    pose proof (Z.mod_pos_bound n 10). lia.
  - destruct (n <? 10) eqn:Hlt.
    + repeat constructor. apply digit_char_cases. lia.
    + apply Forall_app. split.
      * apply IH. apply Z.div_pos; lia.
      * repeat constructor. apply digit_char_cases.
        pose proof (Z.mod_pos_bound n 10). lia.
Qed.

Lemma digits_of_nonempty fuel n : digits_of fuel n ≠ [].
Proof.
  destruct fuel; simpl; [done|].
  destruct (n <? 10); [done|]. by destruct (digits_of fuel (n / 10)).
Qed.

Lemma digits_of_value fuel n :
  0 <= n < 10 ^ Z.of_nat (S fuel) →
  fold_left digit_step (digits_of fuel n) 0 = n.
Proof.
  revert n. induction fuel as [|fuel IH]; intros n Hn.
  - change (10 ^ Z.of_nat 1) with 10 in Hn. simpl. unfold digit_step.
    rewrite Z.mod_small by lia.
    destruct (digit_char_cases n) as [_ ->]; lia.
  - simpl digits_of. destruct (n <? 10) eqn:Hlt.
    + simpl. unfold digit_step.
      destruct (digit_char_cases n) as [_ ->]; lia.
    + rewrite fold_left_app. simpl. rewrite IH.
      * unfold digit_step.
        pose proof (Z.mod_pos_bound n 10).
        destruct (digit_char_cases (n mod 10)) as [_ ->]; [lia|].
        pose proof (Z.div_mod n 10). lia.
      * split; [apply Z.div_pos; lia|].
        apply Z.div_lt_upper_bound; [lia|].
        replace (Z.of_nat (S (S fuel))) with (1 + Z.of_nat (S fuel)) in Hn by lia.
        rewrite Z.pow_add_r in Hn by lia. lia.
Qed.

Lemma log2_fuel n : 0 <= n → n < 10 ^ Z.of_nat (S (Z.to_nat (Z.log2 n))).
Proof.
  intros Hn. pose proof (Z.log2_nonneg n) as Hl.
  replace (Z.of_nat (S (Z.to_nat (Z.log2 n)))) with (Z.succ (Z.log2 n)) by lia.
  destruct (Z.eq_dec n 0) as [->|Hz]; [done|].
  pose proof (Z.log2_spec n ltac:(lia)) as [_ Hub].
  eapply Z.lt_le_trans; [exact Hub|].
  apply Z.pow_le_mono_l. lia.
Qed.

Lemma str_nonneg n : 0 <= n → str n = natural_digits n.
Proof. intros Hn. unfold str. by rewrite (proj2 (Z.ltb_ge n 0)). Qed.

Lemma str_neg n : n < 0 → str n = "-"%char :: natural_digits (- n).
Proof. intros Hn. unfold str. by rewrite (proj2 (Z.ltb_lt n 0)). Qed.

Lemma natural_digits_int n b :
  0 <= n → int_digits 0 b (natural_digits n) = Some n.
Proof.
  intros Hn. unfold natural_digits.
  rewrite int_digits_all.
  - f_equal. apply digits_of_value. split; [done|]. by apply log2_fuel.
  - by apply digits_of_digits.
  - left. apply digits_of_nonempty.
Qed.

(** The characters of [str(n)] are a sign or digits: none is white space. *)
Lemma str_no_space n : Forall (λ c, isspace c = false) (str n).
Proof.
  assert (∀ m, 0 <= m → Forall (λ c, isspace c = false) (natural_digits m)) as Hd.
  { intros m Hm. eapply Forall_impl; [by apply digits_of_digits|].
    intros c. apply digit_not_space. }
  destruct (Z.lt_ge_cases n 0) as [Hn|Hn].
  - rewrite str_neg by done. constructor; [done|]. apply Hd. lia.
  - rewrite str_nonneg by done. by apply Hd.
Qed.

Lemma str_token n : token (str n).
Proof.
  split; [|apply str_no_space].
  destruct (Z.lt_ge_cases n 0) as [Hn|Hn].
  - by rewrite str_neg.
  - rewrite str_nonneg by done. apply digits_of_nonempty.
Qed.

Lemma token_strip s : token s → strip s = s.
Proof.
  intros Ht. apply strip_id; [|by apply token_ends].
  destruct Ht as [Hne Hall]. destruct s as [|c s]; [done|].
  inversion Hall; subst. simpl. by apply negb_true_iff.
Qed.

(** [int(str(n)) == n] *)
Lemma int_str n : int (str n) = Some n.
Proof.
  unfold int. rewrite (token_strip _ (str_token n)).
  destruct (Z.lt_ge_cases n 0) as [Hn|Hn].
  - rewrite str_neg by done.
    change (N_of_ascii "-" =? 45)%N with true. cbv iota.
    rewrite natural_digits_int by lia. simpl. f_equal. lia.
  - rewrite str_nonneg by done.
    pose proof (digits_of_digits (Z.to_nat (Z.log2 n)) n Hn) as Hall.
    pose proof (natural_digits_int n false Hn) as Hint.
    unfold natural_digits in *.
    destruct (digits_of (Z.to_nat (Z.log2 n)) n) as [|c r] eqn:Hd.
    { by apply digits_of_nonempty in Hd. }
    inversion Hall as [|? ? Hc _]; subst.
    destruct (digit_not_sign c Hc) as [-> ->]. done.
Qed.

End IntFacts.

(** ** The remapper *)

Section RemapLines.
Import Py FS Remap.

Variable path : string.
Variable mapping : gmap Z Z.

Lemma remap_lines_skip line rest changed acc :
  blank line = true →
  remap_lines path mapping (line :: rest) changed acc
  = remap_lines path mapping rest changed acc.
Proof. intros Hb. simpl. by rewrite strip_empty_blank, Hb. Qed.

Lemma remap_lines_step line rest changed acc dst :
  blank line = false → line_dst mapping line = Some dst →
  remap_lines path mapping (line :: rest) changed acc
  = remap_lines path mapping rest (changed || moved mapping line)
      (acc ++ [join (t " ") (str dst :: line_coords line)]).
Proof.
  intros Hb Hdst. cbn [remap_lines]. rewrite strip_empty_blank, Hb.
  unfold moved, line_dst, line_id, line_coords in *.
  destruct (split line) as [|first coords]; [done|].
  destruct (int first) as [src|]; [|done].
  cbn [mbind option_bind tail] in *. rewrite Hdst.
  f_equal. destruct changed; cbn [orb].
  - by destruct (bool_decide (dst ≠ src)).
  - rewrite (bool_decide_ext (Some dst ≠ Some src) (dst ≠ src))
      by (split; congruence).
    by destruct (bool_decide (dst ≠ src)).
Qed.

Lemma remap_lines_unknown line rest changed acc k :
  blank line = false → line_id line = Some k → mapping !! k = None →
  remap_lines path mapping (line :: rest) changed acc
  = Raise (UnknownClassId path k).
Proof.
  intros Hb Hid Hk. simpl. rewrite strip_empty_blank, Hb.
  unfold line_id in Hid. destruct (split line) as [|first coords]; [done|].
  by rewrite Hid, Hk.
Qed.

Lemma rewrite_line_Some line y :
  rewrite_line mapping line = Some y →
  ∃ dst, line_dst mapping line = Some dst
         ∧ y = join (t " ") (str dst :: line_coords line).
Proof.
  unfold rewrite_line. destruct (line_dst mapping line) as [dst|]; [|done].
  intros [= <-]. by exists dst.
Qed.

Lemma mapM_cons_Some {A B} (f : A → option B) x l out :
  mapM f (x :: l) = Some out →
  ∃ y ys, f x = Some y ∧ mapM f l = Some ys ∧ out = y :: ys.
Proof.
  cbn [mapM]. destruct (f x) as [y|]; [|done]. cbn [mbind option_bind].
  destruct (mapM f l) as [ys|]; [|done]. intros [= <-]. by exists y, ys.
Qed.

(** All lines mapped: the loop ends with the rewritten lines, and [changed]
    tells whether some class ID moved. *)
Lemma remap_lines_ok lines changed acc out :
  mapM (rewrite_line mapping) (filter (λ l, blank l = false) lines) = Some out →
  remap_lines path mapping lines changed acc
  = Ok (changed || existsb (moved mapping) (filter (λ l, blank l = false) lines),
        acc ++ out).
Proof.
  revert changed acc out. induction lines as [|l lines IH]; intros changed acc out.
  - intros [= <-]. simpl. by rewrite orb_false_r, app_nil_r.
  - destruct (blank l) eqn:Hb.
    + rewrite filter_cons_False by congruence.
      rewrite remap_lines_skip by done. apply IH.
    + rewrite filter_cons_True by done.
      intros (y & ys & Hy & Hys & ->)%mapM_cons_Some.
      apply rewrite_line_Some in Hy as (dst & Hdst & ->).
      rewrite (remap_lines_step _ _ _ _ dst) by done.
      rewrite (IH _ _ ys) by done.
      cbn [existsb]. by rewrite orb_assoc, <- app_assoc.
Qed.

(** The first line whose class ID is no key of the mapping ends the loop. *)
Lemma remap_lines_fail lines changed acc pre l post k out :
  filter (λ l, blank l = false) lines = pre ++ l :: post →
  mapM (rewrite_line mapping) pre = Some out →
  line_id l = Some k → mapping !! k = None →
  remap_lines path mapping lines changed acc = Raise (UnknownClassId path k).
Proof.
  revert changed acc pre out.
  induction lines as [|l0 lines IH]; intros changed acc pre out Hf Hpre Hid Hk.
  - by destruct pre.
  - destruct (blank l0) eqn:Hb.
    + rewrite filter_cons_False in Hf by congruence.
      rewrite remap_lines_skip by done. by eapply IH.
    + rewrite filter_cons_True in Hf by done.
      destruct pre as [|p pre]; simpl in Hf; injection Hf as -> Hf.
      * by apply remap_lines_unknown.
      * apply mapM_cons_Some in Hpre as (y & ys & Hy & Hys & ->).
        apply rewrite_line_Some in Hy as (dst & Hdst & ->).
        rewrite (remap_lines_step _ _ _ _ dst) by done.
        by eapply IH.
Qed.

End RemapLines.

Section RemapFile.
Import Py FS Remap.

Variable mapping : gmap Z Z.

Lemma fully_mapped_rewrite content :
  fully_mapped mapping content →
  ∃ out, mapM (rewrite_line mapping) (label_lines content) = Some out.
Proof.
  intros Hall. apply mapM_is_Some. eapply Forall_impl; [exact Hall|].
  intros l [dst Hdst]. unfold rewrite_line. simpl. rewrite Hdst. by eexists.
Qed.

Lemma remap_file_ok fs path content out :
  files fs !! path = Some content →
  mapM (rewrite_line mapping) (label_lines content) = Some out →
  remap_file path mapping fs
  = if needs_rewrite mapping content
    then (write_text path (written out) fs, Ok true)
    else (fs, Ok false).
Proof.
  intros Hfile Hout. unfold remap_file, read_text. rewrite Hfile.
  rewrite (remap_lines_ok path mapping _ false [] out Hout).
  cbn [orb app]. fold (label_lines content). fold (needs_rewrite mapping content).
  by destruct (needs_rewrite mapping content).
Qed.

Lemma remap_file_fail fs path content pre l post k :
  files fs !! path = Some content →
  label_lines content = pre ++ l :: post →
  Forall (λ l, is_Some (line_dst mapping l)) pre →
  line_id l = Some k → mapping !! k = None →
  remap_file path mapping fs = (fs, Raise (UnknownClassId path k)).
Proof.
  intros Hfile Hlines Hpre Hid Hk. unfold remap_file, read_text. rewrite Hfile.
  assert (∃ out, mapM (rewrite_line mapping) pre = Some out) as [out Hout].
  { apply mapM_is_Some. eapply Forall_impl; [exact Hpre|].
    intros l' [dst Hdst]. unfold rewrite_line. simpl. rewrite Hdst. by eexists. }
  by rewrite (remap_lines_fail path mapping _ false [] pre l post k out).
Qed.

(** A rewritten line reads back as the destination ID and the old
    coordinate tokens. *)
Lemma rewrite_line_reads line y :
  rewrite_line mapping line = Some y →
  line_id y = line_dst mapping line ∧ line_coords y = line_coords line ∧ tidy y.
Proof.
  intros (dst & Hdst & ->)%rewrite_line_Some.
  assert (Forall token (str dst :: line_coords line)) as Htok.
  { constructor; [apply str_token|].
    unfold line_coords. pose proof (split_tokens line) as Hall.
    destruct (split line); [done|]. by inversion Hall. }
  generalize dependent (line_coords line). intros cs Htok.
  unfold line_id, line_coords. rewrite (split_join _ Htok).
  split; [by rewrite int_str|]. split; [done|].
  by apply join_tokens_tidy.
Qed.

Lemma rewrite_lines_read lines out :
  mapM (rewrite_line mapping) lines = Some out →
  line_id <$> out = line_dst mapping <$> lines
  ∧ line_coords <$> out = line_coords <$> lines
  ∧ Forall tidy out.
Proof.
  revert out. induction lines as [|l lines IH]; intros out.
  - by intros [= <-].
  - intros (y & ys & Hy & Hys & ->)%mapM_cons_Some.
    destruct (rewrite_line_reads _ _ Hy) as (Hid & Hco & Hti).
    destruct (IH _ Hys) as (Hids & Hcos & Htis).
    cbn [fmap list_fmap]. rewrite Hid, Hco.
    repeat split; [by f_equal|by f_equal|by constructor].
Qed.

(** The record lines of a written file are the lines written. *)
Lemma label_lines_written out :
  out ≠ [] → Forall tidy out → label_lines (written out) = out.
Proof.
  intros Hne Hall. unfold label_lines, written.
  rewrite splitlines_written by done.
  induction Hall as [|l ls Hl Hls IH]; [done|].
  rewrite filter_cons_True by (by apply tidy_not_blank).
  destruct ls as [|l' ls]; [done|]. by rewrite IH.
Qed.

(** No class ID moves: every line's destination is its own ID. *)
Lemma not_moved_fixed lines :
  existsb (moved mapping) lines = false →
  line_dst mapping <$> lines = line_id <$> lines.
Proof.
  induction lines as [|l lines IH]; [done|].
  cbn [existsb]. intros [Hl Hls]%orb_false_elim.
  cbn [fmap list_fmap]. f_equal; [|by apply IH].
  unfold moved in Hl. apply bool_decide_eq_false in Hl.
  by destruct (decide (line_dst mapping l = line_id l)).
Qed.

(** [remap_file] either leaves the file system as it is, or makes the one
    write of its own path, and then it returns [True]. *)
Lemma remap_file_effect fs path fs' r :
  remap_file path mapping fs = (fs', r) →
  fs' = fs ∧ r ≠ Ok true
  ∨ r = Ok true ∧ ∃ content, fs' = write_text path content fs.
Proof.
  unfold remap_file. destruct (read_text fs path) as [content|e].
  - destruct (remap_lines _ _ _ _ _) as [[[] out]|e].
    + intros [= <- <-]. right. eauto.
    + intros [= <- <-]. by left.
    + intros [= <- <-]. by left.
  - intros [= <- <-]. by left.
Qed.

End RemapFile.

Section RemapSplit.
Import Py FS Remap.

Variable mapping : gmap Z Z.

Lemma remap_each_app pre rest changes fs :
  remap_each (pre ++ rest) mapping changes fs
  = match remap_each pre mapping changes fs with
    | (fs1, Ok changes1) => remap_each rest mapping changes1 fs1
    | (fs1, Raise e) => (fs1, Raise e)
    end.
Proof.
  revert changes fs. induction pre as [|p pre IH]; intros changes fs; [done|].
  simpl. destruct (remap_file p mapping fs) as [fs1 [changed|e]]; [|done].
  apply IH.
Qed.

Lemma rewritten_files_agree fs fs' ps :
  (∀ p, p ∈ ps → files fs' !! p = files fs !! p) →
  rewritten_files mapping fs' ps = rewritten_files mapping fs ps.
Proof.
  unfold rewritten_files. induction ps as [|p ps IH]; intros Hsame; [done|].
  assert (file_moves mapping fs' p = file_moves mapping fs p) as Hp.
  { unfold file_moves. rewrite Hsame; [done|left]. }
  rewrite !filter_cons, Hp, IH; [done|].
  intros q Hq. apply Hsame. by right.
Qed.

(** A split whose files are all mapped: the loop ends, counts the files it
    rewrote, and touches no other file. *)
Lemma remap_each_ok ps changes fs :
  NoDup ps → Forall (mapped_file mapping fs) ps →
  ∃ fs',
    remap_each ps mapping changes fs
    = (fs', Ok (changes + Z.of_nat (length (rewritten_files mapping fs ps))))
    ∧ dirs fs' = dirs fs
    ∧ writes fs' = writes fs ++ rewritten_files mapping fs ps
    ∧ ∀ p, p ∉ ps → files fs' !! p = files fs !! p.
Proof.
  revert changes fs. induction ps as [|p ps IH]; intros changes fs Hnd Hall.
  - exists fs. simpl. rewrite Z.add_0_r, app_nil_r. done.
  - apply NoDup_cons in Hnd as [Hp Hnd].
    apply Forall_cons in Hall as [(content & Hfile & Hmapped) Hall].
    destruct (fully_mapped_rewrite _ _ Hmapped) as [out Hout].
    cbn [remap_each]. rewrite (remap_file_ok _ _ _ _ _ Hfile Hout).
    assert (file_moves mapping fs p = needs_rewrite mapping content) as Hmv.
    { unfold file_moves. by rewrite Hfile. }
    unfold rewritten_files in *.
    destruct (needs_rewrite mapping content) eqn:Hneeds.
    + rewrite filter_cons_True by done.
      set (fs1 := write_text p (written out) fs).
      assert (∀ q, q ∈ ps → files fs1 !! q = files fs !! q) as Hsame.
      { intros q Hq. unfold fs1, write_text. simpl.
        apply lookup_insert_ne. intros ->. done. }
      destruct (IH (changes + 1) fs1 Hnd) as (fs' & Hrun & Hdirs & Hwrites & Hother).
      { rewrite Forall_forall in Hall |- *. intros q Hq.
        destruct (Hall q Hq) as (c & Hc & Hm). exists c. by rewrite Hsame. }
      pose proof (rewritten_files_agree fs fs1 ps Hsame) as Hagree.
      unfold rewritten_files in Hagree. rewrite Hagree in Hrun, Hwrites.
      exists fs'. rewrite Hrun. split; [|split; [|split]].
      * do 2 f_equal. cbn [length]. lia.
      * done.
      * rewrite Hwrites. unfold fs1. simpl. by rewrite <- app_assoc.
      * intros q Hq. apply not_elem_of_cons in Hq as [Hne Hq].
        rewrite (Hother q Hq). unfold fs1. simpl. by apply lookup_insert_ne.
    + rewrite filter_cons_False by congruence.
      destruct (IH changes fs Hnd Hall) as (fs' & Hrun & Hdirs & Hwrites & Hother).
      exists fs'. rewrite Hrun. repeat split; [done|done|].
      intros q Hq. apply not_elem_of_cons in Hq as [Hne Hq]. by apply Hother.
Qed.

(** The split stops at the first file that holds an unknown class ID; the
    files before it are settled as above, nothing else is touched. *)
Lemma remap_each_fail pre f post changes fs content before l after k :
  NoDup (pre ++ f :: post) → Forall (mapped_file mapping fs) pre →
  files fs !! f = Some content →
  label_lines content = before ++ l :: after →
  Forall (λ l, is_Some (line_dst mapping l)) before →
  line_id l = Some k → mapping !! k = None →
  ∃ fs',
    remap_each (pre ++ f :: post) mapping changes fs
    = (fs', Raise (UnknownClassId f k))
    ∧ dirs fs' = dirs fs
    ∧ writes fs' = writes fs ++ rewritten_files mapping fs pre
    ∧ ∀ p, p ∉ pre → files fs' !! p = files fs !! p.
Proof.
  intros Hnd Hpre Hfile Hlines Hbefore Hid Hk.
  apply NoDup_app in Hnd as (Hnd_pre & Hdisj & _).
  destruct (remap_each_ok pre changes fs Hnd_pre Hpre)
    as (fs1 & Hrun & Hdirs & Hwrites & Hother).
  exists fs1. rewrite remap_each_app, Hrun. cbn [remap_each].
  assert (f ∉ pre) as Hf. { intros Hin. apply (Hdisj f Hin). left. }
  rewrite (remap_file_fail mapping fs1 f content before l after k);
    [done|by rewrite Hother|done..].
Qed.

End RemapSplit.

Section RemapInversion.
Import Py FS Remap.

Variable mapping : gmap Z Z.

Lemma remap_lines_stuck path line rest changed acc :
  blank line = false → line_dst mapping line = None →
  ∃ e, remap_lines path mapping (line :: rest) changed acc = Raise e.
Proof.
  intros Hb Hdst. cbn [remap_lines]. rewrite strip_empty_blank, Hb.
  unfold line_dst, line_id in Hdst.
  destruct (split line) as [|first coords]; [by eexists|].
  destruct (int first) as [src|]; [|by eexists].
  cbn [mbind option_bind] in Hdst. rewrite Hdst. by eexists.
Qed.

(** The loop ends normally only when every record line is mapped. *)
Lemma remap_lines_Ok_inv path lines changed acc r :
  remap_lines path mapping lines changed acc = Ok r →
  ∃ out, mapM (rewrite_line mapping) (filter (λ l, blank l = false) lines) = Some out.
Proof.
  revert changed acc. induction lines as [|l lines IH]; intros changed acc Hrun.
  - by exists [].
  - destruct (blank l) eqn:Hb.
    + rewrite filter_cons_False by congruence.
      rewrite remap_lines_skip in Hrun by done. by eapply IH.
    + rewrite filter_cons_True by done.
      destruct (line_dst mapping l) as [dst|] eqn:Hdst.
      * rewrite (remap_lines_step _ _ _ _ _ _ dst) in Hrun by done.
        destruct (IH _ _ Hrun) as [out Hout].
        exists (join (t " ") (str dst :: line_coords l) :: out).
        assert (rewrite_line mapping l
                = Some (join (t " ") (str dst :: line_coords l))) as Hl.
        { unfold rewrite_line. by rewrite Hdst. }
        cbn [mapM]. by rewrite Hl, Hout.
      * destruct (remap_lines_stuck path l lines changed acc Hb Hdst) as [e He].
        congruence.
Qed.

(** What a normal return of [remap_file] tells. *)
Lemma remap_file_Ok_inv fs path fs1 changed :
  remap_file path mapping fs = (fs1, Ok changed) →
  ∃ content out,
    files fs !! path = Some content
    ∧ mapM (rewrite_line mapping) (label_lines content) = Some out
    ∧ changed = needs_rewrite mapping content
    ∧ fs1 = if changed then write_text path (written out) fs else fs.
Proof.
  intros Hrun. pose proof Hrun as Hrun'. unfold remap_file, read_text in Hrun.
  destruct (files fs !! path) as [content|] eqn:Hfile; [|done].
  destruct (remap_lines _ _ _ _ _) as [r|e] eqn:Hlines.
  - apply remap_lines_Ok_inv in Hlines as [out Hout].
    exists content, out. rewrite (remap_file_ok _ _ _ _ _ Hfile Hout) in Hrun'.
    destruct (needs_rewrite mapping content); by injection Hrun' as <- <-.
  - done.
Qed.

Lemma glob_txt_NoDup fs d names :
  dirs fs !! d = Some names → NoDup names → NoDup (glob_txt fs d).
Proof.
  intros Hd Hnd. unfold glob_txt. rewrite Hd.
  apply NoDup_fmap_2; [|by apply NoDup_filter].
  intros x y Heq. unfold path_join in Heq.
  by apply (inj (String.app d)), (inj (String.app "/")) in Heq.
Qed.

End RemapInversion.

Section RemapReads.
Import Py FS Remap.

Variable mapping : gmap Z Z.

Lemma line_dst_id line : is_Some (line_dst mapping line) → is_Some (line_id line).
Proof.
  unfold line_dst. intros [dst Hdst]. destruct (line_id line); [by eexists|done].
Qed.

Lemma rewrite_lines_mapped lines out :
  mapM (rewrite_line mapping) lines = Some out →
  Forall (λ l, is_Some (line_dst mapping l)) lines.
Proof.
  revert out. induction lines as [|l lines IH]; intros out; [constructor|].
  intros (y & ys & Hy & Hys & ->)%mapM_cons_Some.
  apply rewrite_line_Some in Hy as (dst & Hdst & ->).
  constructor; [by eexists|by eapply IH].
Qed.

Lemma rewrite_lines_length lines out :
  mapM (rewrite_line mapping) lines = Some out → length out = length lines.
Proof.
  revert out. induction lines as [|l lines IH]; intros out.
  - by intros [= <-].
  - intros (y & ys & Hy & Hys & ->)%mapM_cons_Some. simpl. f_equal. by apply IH.
Qed.

(** After a normal return the file reads as the old one with every class ID
    sent through the mapping, whether it was rewritten or not. *)
Lemma remap_file_reads fs path content out :
  files fs !! path = Some content →
  mapM (rewrite_line mapping) (label_lines content) = Some out →
  ∃ content',
    files (if needs_rewrite mapping content
           then write_text path (written out) fs else fs) !! path = Some content'
    ∧ line_id <$> label_lines content' = line_dst mapping <$> label_lines content
    ∧ line_coords <$> label_lines content' = line_coords <$> label_lines content
    ∧ Forall (λ l, is_Some (line_id l)) (label_lines content').
Proof.
  intros Hfile Hout.
  pose proof (rewrite_lines_mapped _ _ Hout) as Hmapped.
  destruct (needs_rewrite mapping content) eqn:Hneeds.
  - exists (written out). split; [apply lookup_insert_eq|].
    destruct (rewrite_lines_read mapping _ _ Hout) as (Hids & Hcos & Htidy).
    assert (out ≠ []) as Hne.
    { intros ->. apply rewrite_lines_length in Hout.
      unfold needs_rewrite in Hneeds.
      destruct (label_lines content); done. }
    rewrite (label_lines_written out Hne Htidy).
    split; [done|]. split; [done|].
    assert (Forall is_Some (line_id <$> out)) as Hsome.
    { rewrite Hids, Forall_fmap.
      eapply Forall_impl; [exact Hmapped|]. done. }
    rewrite Forall_fmap in Hsome. eapply Forall_impl; [exact Hsome|]. done.
  - exists content. split; [done|].
    split; [symmetry; by apply not_moved_fixed|]. split; [done|].
    eapply Forall_impl; [exact Hmapped|]. apply line_dst_id.
Qed.

(** A mapping that sends every class ID of the file to itself: no write. *)
Lemma remap_file_fixed fs path content :
  files fs !! path = Some content →
  Forall (λ l, is_Some (line_id l) ∧ line_dst mapping l = line_id l)
    (label_lines content) →
  remap_file path mapping fs = (fs, Ok false).
Proof.
  intros Hfile Hfixed.
  assert (fully_mapped mapping content) as Hmapped.
  { eapply Forall_impl; [exact Hfixed|]. intros l [Hid ->]. done. }
  destruct (fully_mapped_rewrite _ _ Hmapped) as [out Hout].
  rewrite (remap_file_ok _ _ _ _ _ Hfile Hout).
  replace (needs_rewrite mapping content) with false; [done|].
  symmetry. unfold needs_rewrite. apply not_true_iff_false.
  intros (l & Hl & Hmoved)%existsb_exists.
  rewrite Forall_forall in Hfixed.
  destruct (Hfixed l) as [_ Heq]; [by apply list_elem_of_In|].
  unfold moved in Hmoved. by apply bool_decide_eq_true in Hmoved.
Qed.

End RemapReads.

(** ** The previewer *)

Section Geometry.
Import (hints) Num.

Lemma exact_max a b : Num.max (F:=Q) a b = Qmax a b.
Proof.
  unfold Num.max, Qmax, GenericMinMax.gmax. simpl. unfold Num.Q_lt.
  by destruct (a ?= b)%Q.
Qed.

Lemma exact_min a b : Num.min (F:=Q) a b = Qmin a b.
Proof.
  unfold Num.min, Qmin, GenericMinMax.gmin. simpl. unfold Num.Q_lt.
  rewrite <- (Qcompare_antisym a b). by destruct (a ?= b)%Q.
Qed.

Lemma binary64_lt_compare a b :
  PrimFloat.ltb a b = true ↔ PrimFloat.compare a b = FLt.
Proof.
  rewrite FloatAxioms.ltb_spec, FloatAxioms.compare_spec.
  unfold SFltb, flatten_cmp_opt.
  destruct (SFcompare _ _) as [[]|]; split; congruence.
Qed.

Lemma binary64_max a b : Num.max (F:=float) a b = float_max a b.
Proof.
  unfold Num.max, float_max. simpl.
  pose proof (binary64_lt_compare a b) as Hlt.
  destruct (PrimFloat.ltb a b).
  - rewrite (proj1 Hlt eq_refl). reflexivity.
  - destruct (PrimFloat.compare a b); try done.
    discriminate (proj2 Hlt eq_refl).
Qed.

Lemma binary64_min a b : Num.min (F:=float) a b = float_min a b.
Proof.
  unfold Num.min, float_min. simpl.
  pose proof (binary64_lt_compare b a) as Hlt.
  destruct (PrimFloat.ltb b a).
  - rewrite (proj1 Hlt eq_refl). reflexivity.
  - destruct (PrimFloat.compare b a); try done.
    discriminate (proj2 Hlt eq_refl).
Qed.

(** [denorm_box] over rationals is the specification's formula. *)
Lemma denorm_box_exact (cx cy w h : Q) (W H : Z) :
  Preview.denorm_box cx cy w h W H
  = Ok (denormalize_formula cx cy w h (inject_Z W) (inject_Z H)).
Proof.
  unfold Preview.denorm_box, denormalize_formula. simpl Num.of_int. cbv iota.
  by rewrite !exact_max, !exact_min.
Qed.

Lemma denorm_box_binary64 (cx cy w h : float) (W H : Z) (fW fH : float) :
  Num.of_int W = Some fW → Num.of_int H = Some fH →
  Preview.denorm_box cx cy w h W H
  = Ok (denormalize_binary64 cx cy w h fW fH).
Proof.
  intros HW HH. unfold Preview.denorm_box, denormalize_binary64.
  rewrite HW, HH. by rewrite !binary64_max, !binary64_min.
Qed.

(** The clamps do nothing to corners inside the image. *)
Lemma Qmax_inside x : (0 <= x)%Q → (Qmax 0 x == x)%Q.
Proof. intros Hx. by apply Q.max_r. Qed.

Lemma Qmin_inside W x : (x <= W)%Q → (Qmin W x == x)%Q.
Proof. intros Hx. by apply Q.min_r. Qed.

Lemma renormalize_denormalize (cx cy w h W H : Q) :
  (0 < W)%Q → (0 < H)%Q →
  (0 <= (cx - w / 2) * W)%Q → (0 <= (cy - h / 2) * H)%Q →
  ((cx + w / 2) * W <= W)%Q → ((cy + h / 2) * H <= H)%Q →
  let '(cx', cy', w', h') := renormalize (denormalize_formula cx cy w h W H) W H in
  (cx' == cx ∧ cy' == cy ∧ w' == w ∧ h' == h)%Q.
Proof.
  intros HW HH Hx0 Hy0 Hx1 Hy1. unfold renormalize, denormalize_formula.
  rewrite !Qmax_inside, !Qmin_inside by done.
  assert (¬ (W == 0)%Q) by (intros E; rewrite E in HW; by apply Qlt_irrefl in HW).
  assert (¬ (H == 0)%Q) by (intros E; rewrite E in HH; by apply Qlt_irrefl in HH).
  repeat split; field; done.
Qed.

End Geometry.

Section Sampling.
Import Py FS Preview.

Lemma sorted_sorted paths : StronglySorted String.le (sorted paths).
Proof. unfold sorted. apply StronglySorted_merge_sort; apply _. Qed.

Lemma sorted_permutation paths : sorted paths ≡ₚ paths.
Proof. apply merge_sort_Permutation. Qed.

(** The sorted order does not depend on the order of enumeration. *)
Lemma sorted_unique paths1 paths2 :
  paths1 ≡ₚ paths2 → sorted paths1 = sorted paths2.
Proof.
  intros Hperm. apply (StronglySorted_unique String.le).
  - apply sorted_sorted.
  - apply sorted_sorted.
  - by rewrite !sorted_permutation.
Qed.

Lemma slice_to_take {A} (l : list A) (count : Z) :
  0 <= count → slice_to l count = take (Z.to_nat count) l.
Proof.
  intros Hc. unfold slice_to. rewrite (proj2 (Z.ltb_ge count 0)) by done.
  destruct (Z.le_gt_cases count (Z.of_nat (length l))) as [Hle|Hgt].
  - by rewrite Z.min_l.
  - rewrite Z.min_r by lia. rewrite Nat2Z.id.
    rewrite !take_ge; [done|lia|lia].
Qed.

Lemma glob_txt_missing fs d : dirs fs !! d = None → glob_txt fs d = [].
Proof. intros Hd. unfold glob_txt. by rewrite Hd. Qed.

Lemma glob_txt_empty fs d : dirs fs !! d = Some [] → glob_txt fs d = [].
Proof. intros Hd. unfold glob_txt. by rewrite Hd. Qed.

Lemma glob_txt_permutation fs1 fs2 d names1 names2 :
  dirs fs1 !! d = Some names1 → dirs fs2 !! d = Some names2 →
  names1 ≡ₚ names2 → glob_txt fs1 d ≡ₚ glob_txt fs2 d.
Proof.
  intros H1 H2 Hperm. unfold glob_txt. rewrite H1, H2. by rewrite Hperm.
Qed.

End Sampling.

Section Labels.
Import Py FS Preview.

Lemma getitem_front {A} (l : list A) (i : Z) :
  0 <= i < Z.of_nat (length l) → getitem l i = l !! Z.to_nat i.
Proof.
  intros Hi. unfold getitem.
  rewrite (proj2 (Z.ltb_ge i 0)) by lia.
  rewrite (proj2 (Z.leb_le 0 i)), (proj2 (Z.ltb_lt i _)) by lia. done.
Qed.

Lemma getitem_back {A} (l : list A) (i : Z) :
  - Z.of_nat (length l) <= i < 0 →
  getitem l i = l !! Z.to_nat (Z.of_nat (length l) + i).
Proof.
  intros Hi. unfold getitem.
  rewrite (proj2 (Z.ltb_lt i 0)) by lia.
  rewrite (proj2 (Z.leb_le 0 _)), (proj2 (Z.ltb_lt _ _)) by lia.
  by rewrite Z.add_comm.
Qed.

Lemma getitem_below {A} (l : list A) (i : Z) :
  i < - Z.of_nat (length l) → getitem l i = None.
Proof.
  intros Hi. unfold getitem.
  rewrite (proj2 (Z.ltb_lt i 0)) by lia.
  by rewrite (proj2 (Z.leb_gt 0 _)) by lia.
Qed.

Lemma getitem_in_range {A} (l : list A) (i : Z) :
  - Z.of_nat (length l) <= i < Z.of_nat (length l) → is_Some (getitem l i).
Proof.
  intros Hi. destruct (Z.lt_ge_cases i 0).
  - rewrite getitem_back by lia. apply lookup_lt_is_Some. lia.
  - rewrite getitem_front by lia. apply lookup_lt_is_Some. lia.
Qed.

End Labels.

Section Parsing.
Import Py FS Preview.
Context {F : Type} `{Num.Arith F}.

Lemma parse_lines_empty rest (boxes : list (label_record (F:=F))) :
  parse_lines ([] :: rest) boxes = parse_lines rest boxes.
Proof. done. Qed.

(** A line of five tokens that [int] and [float] accept adds one record. *)
Lemma parse_lines_record line rest (boxes : list label_record)
    cls cx cy w h cls_id (fx fy fw fh : F) :
  line ≠ [] → split line = [cls; cx; cy; w; h] →
  int cls = Some cls_id →
  Num.of_str cx = Some fx → Num.of_str cy = Some fy →
  Num.of_str w = Some fw → Num.of_str h = Some fh →
  parse_lines (line :: rest) boxes
  = parse_lines rest (boxes ++ [(cls_id, fx, fy, fw, fh)]).
Proof.
  intros Hne Hsplit Hcls Hcx Hcy Hw Hh. cbn [parse_lines].
  destruct line; [done|]. cbn [is_empty].
  rewrite Hsplit, Hcls. unfold float_of. by rewrite Hcx, Hcy, Hw, Hh.
Qed.

(** A line that is not empty and holds white space only ends the loop with
    the error of the tuple unpacking. *)
Lemma parse_lines_whitespace line rest (boxes : list (label_record (F:=F))) :
  line ≠ [] → blank line = true →
  parse_lines (line :: rest) boxes = Raise (UnpackError 5 0).
Proof.
  intros Hne Hb. cbn [parse_lines]. destruct line; [done|]. cbn [is_empty].
  by rewrite (split_blank _ Hb).
Qed.

End Parsing.

Section SingleRecord.
Import Py FS Preview.
Context {F : Type} `{Num.Arith F}.

(** A file of one record whose coordinate tokens [float] accepts: one
    label record, whatever the sign of the class ID. *)
Lemma parse_labels_record fs path cls_id cx cy w h (fx fy fw fh : F) :
  files fs !! path = Some (record_text cls_id cx cy w h) →
  token cx → token cy → token w → token h →
  Num.of_str cx = Some fx → Num.of_str cy = Some fy →
  Num.of_str w = Some fw → Num.of_str h = Some fh →
  parse_labels fs path = Ok [(cls_id, fx, fy, fw, fh)].
Proof.
  intros Hfile Tcx Tcy Tw Th Hcx Hcy Hw Hh.
  unfold parse_labels, read_text. rewrite Hfile.
  assert (Forall token [str cls_id; cx; cy; w; h]) as Htok.
  { constructor; [apply str_token|]. repeat (constructor; [assumption|]).
    constructor. }
  assert ([str cls_id; cx; cy; w; h] ≠ []) as Hne by discriminate.
  pose proof (join_tokens_tidy _ Hne Htok) as Htidy.
  change (record_text cls_id cx cy w h)
    with (written [join (t " ") [str cls_id; cx; cy; w; h]]).
  unfold written. rewrite splitlines_written.
  - rewrite (parse_lines_record _ _ _ (str cls_id) cx cy w h cls_id fx fy fw fh).
    + done.
    + by apply join_tokens_nonempty.
    + by apply split_join.
    + apply int_str.
    + done.
    + done.
    + done.
    + done.
  - discriminate.
  - constructor; [done|constructor].
Qed.

End SingleRecord.

Section FindImage.
Import Py FS Preview.

Lemma find_image_cases fs images_dir stem :
  find_image fs images_dir stem
  = if path_exists fs (candidate images_dir stem ".jpg")
    then Ok (candidate images_dir stem ".jpg")
    else if path_exists fs (candidate images_dir stem ".jpeg")
    then Ok (candidate images_dir stem ".jpeg")
    else if path_exists fs (candidate images_dir stem ".png")
    then Ok (candidate images_dir stem ".png")
    else Raise (NoImageFound stem images_dir).
Proof. done. Qed.

End FindImage.

Section RemapFrame.
Import Py FS Remap.

Variable mapping : gmap Z Z.

(** Whatever [remap_file] does, it does to its own path: the directories and
    the set of files stay, and so does every other file. *)
Lemma remap_file_frame fs path fs' r :
  remap_file path mapping fs = (fs', r) →
  dirs fs' = dirs fs
  ∧ dom (files fs') = dom (files fs)
  ∧ (∀ p, p ≠ path → files fs' !! p = files fs !! p)
  ∧ (writes fs' = writes fs ∧ files fs' = files fs ∧ r ≠ Ok true
     ∨ writes fs' = writes fs ++ [path] ∧ r = Ok true).
Proof.
  unfold remap_file, read_text.
  destruct (files fs !! path) as [content|] eqn:Hfile.
  - destruct (remap_lines _ _ _ _ _) as [[[] out]|e].
    + intros [= <- <-]. simpl. split_and!.
      * done.
      * apply dom_insert_lookup_L. by eexists.
      * intros p Hp. by apply lookup_insert_ne.
      * by right.
    + intros [= <- <-]. split_and!; [done..|by left].
    + intros [= <- <-]. split_and!; [done..|by left].
  - intros [= <- <-]. split_and!; [done..|by left].
Qed.

(** The loop over the label files: the count grows by the number of writes,
    the writes are of listed files, and nothing else changes. *)
Lemma remap_each_frame ps changes fs fs' r :
  remap_each ps mapping changes fs = (fs', r) →
  dirs fs' = dirs fs
  ∧ dom (files fs') = dom (files fs)
  ∧ ∃ ws,
      writes fs' = writes fs ++ ws
      ∧ ws ⊆ ps
      ∧ (∀ p, p ∉ ws → files fs' !! p = files fs !! p)
      ∧ (∀ n, r = Ok n → n = changes + Z.of_nat (length ws)).
Proof.
  revert changes fs. induction ps as [|p ps IH]; intros changes fs.
  - intros [= <- <-]. split; [done|]. split; [done|]. exists [].
    rewrite app_nil_r. split_and!; [done|by intros q Hq|done|].
    intros n [= <-]. simpl. lia.
  - cbn [remap_each].
    destruct (remap_file p mapping fs) as [fs1 r1] eqn:Hfile.
    destruct (remap_file_frame _ _ _ _ Hfile) as (Hd1 & Hdom1 & Hother1 & Hw1).
    destruct r1 as [changed|e].
    + intros Hrest. destruct (IH _ _ Hrest) as (Hd & Hdom & ws & Hws & Hsub & Hother & Hn).
      split; [congruence|]. split; [congruence|].
      destruct Hw1 as [(Hw1 & Hf1 & Hne)|[Hw1 [= ->]]].
      * exists ws. destruct changed; [done|].
        split_and!; [congruence|intros q Hq; right; by apply Hsub| |done].
        intros q Hq. rewrite Hother by done. by rewrite Hf1.
      * exists (p :: ws). rewrite Hws, Hw1, <- app_assoc.
        split; [done|]. split; [|split].
        -- intros q [->|Hq]%elem_of_cons; [left|right; by apply Hsub].
        -- intros q Hq. apply not_elem_of_cons in Hq as [Hqp Hq].
           rewrite Hother by done. by apply Hother1.
        -- intros n Hr. rewrite (Hn n Hr). cbn [length]. lia.
    + intros [= <- <-]. split; [done|]. split; [done|].
      destruct Hw1 as [(Hw1 & Hf1 & Hne)|[_ [=]]].
      exists []. rewrite app_nil_r.
      split_and!; [done|intros q Hq; by apply elem_of_nil in Hq|by rewrite Hf1|done].
Qed.

End RemapFrame.

Section RemapMainFacts.
Import Py FS Remap RemapMain.

Variable mapping : gmap Z Z.

Lemma glob_txt_dirs fs fs' d : dirs fs' = dirs fs → glob_txt fs' d = glob_txt fs d.
Proof. intros Hd. unfold glob_txt. by rewrite Hd. Qed.

Lemma remap_split_frame base_dir split fs fs' r :
  remap_split base_dir split mapping fs = (fs', r) →
  dirs fs' = dirs fs
  ∧ dom (files fs') = dom (files fs)
  ∧ ∃ ws,
      writes fs' = writes fs ++ ws
      ∧ ws ⊆ glob_txt fs (labels_dir_of base_dir split)
      ∧ (∀ p, p ∉ ws → files fs' !! p = files fs !! p)
      ∧ (∀ n, r = Ok n → n = Z.of_nat (length ws)).
Proof.
  unfold remap_split. destruct (is_dir fs _).
  - intros Hrun. apply remap_each_frame in Hrun as (Hd & Hdom & ws & Hws & Hsub & Ho & Hn).
    split_and!; [done..|]. exists ws. split_and!; [done..|].
    intros n Hr. rewrite (Hn n Hr). lia.
  - intros [= <- <-]. split_and!; [done..|]. exists []. rewrite app_nil_r.
    split_and!; [done|intros q Hq; by apply elem_of_nil in Hq|done|done].
Qed.

(** The loop of [main]: the counter grows by the number of writes, every
    write is of a label file of one of the splits, nothing else changes. *)
Lemma remap_splits_frame base_dir splits touched fs fs' r :
  remap_splits base_dir splits mapping touched fs = (fs', r) →
  dirs fs' = dirs fs
  ∧ dom (files fs') = dom (files fs)
  ∧ ∃ ws,
      writes fs' = writes fs ++ ws
      ∧ (∀ p, p ∈ ws →
           ∃ split, split ∈ splits ∧ p ∈ glob_txt fs (labels_dir_of base_dir split))
      ∧ (∀ p, p ∉ ws → files fs' !! p = files fs !! p)
      ∧ (∀ n, r = Ok n → n = touched + Z.of_nat (length ws)).
Proof.
  revert touched fs. induction splits as [|split splits IH]; intros touched fs.
  - intros [= <- <-]. split_and!; [done..|]. exists []. rewrite app_nil_r.
    split_and!; [done| |done|].
    + intros p Hp. by apply elem_of_nil in Hp.
    + intros n [= <-]. simpl. lia.
  - cbn [remap_splits].
    destruct (remap_split base_dir split mapping fs) as [fs1 r1] eqn:Hsplit.
    destruct (remap_split_frame _ _ _ _ _ Hsplit)
      as (Hd1 & Hdom1 & ws1 & Hws1 & Hsub1 & Ho1 & Hn1).
    destruct r1 as [changes|e].
    + intros Hrest.
      destruct (IH _ _ Hrest) as (Hd & Hdom & ws & Hws & Hin & Ho & Hn).
      split; [congruence|]. split; [congruence|].
      exists (ws1 ++ ws). rewrite Hws, Hws1, <- app_assoc.
      split_and!; [done| | |].
      * intros p [Hp|Hp]%elem_of_app.
        -- exists split. split; [left|by apply Hsub1].
        -- destruct (Hin p Hp) as (s & Hs & Hg). exists s.
           split; [by right|]. by rewrite <- (glob_txt_dirs fs fs1).
      * intros p Hp. apply not_elem_of_app in Hp as [Hp1 Hp2].
        rewrite Ho by done. by apply Ho1.
      * intros n Hr. rewrite (Hn n Hr), (Hn1 changes eq_refl), length_app. lia.
    + intros [= <- <-]. split_and!; [done..|]. exists ws1.
      split_and!; [done| |done|done].
      intros p Hp. exists split. split; [left|by apply Hsub1].
Qed.

(** [dict(pairs)] holds for a key the value of its last pair. *)
Lemma dict_of_snoc pairs k v :
  dict_of (pairs ++ [(k, v)]) = <[k := v]> (dict_of pairs).
Proof. unfold dict_of. by rewrite fold_left_app. Qed.

Lemma dict_of_lookup pairs k :
  dict_of pairs !! k = snd <$> List.last (Some <$> filter (λ kv, kv.1 = k) pairs) None.
Proof.
  induction pairs as [|[k' v'] pairs IH] using rev_ind; [done|].
  rewrite dict_of_snoc, filter_app, fmap_app.
  destruct (decide (k' = k)) as [->|Hne].
  - rewrite lookup_insert_eq, filter_cons_True by done.
    simpl. by rewrite last_last.
  - rewrite lookup_insert_ne by done.
    rewrite filter_cons_False by done. simpl. by rewrite app_nil_r.
Qed.

End RemapMainFacts.

Section RemapTwice.
Import Py FS Remap.

Lemma line_dst_fmap mapping (lines : list Py.text) :
  line_dst mapping <$> lines = (λ o, o ≫= (mapping !!.)) <$> (line_id <$> lines).
Proof. by rewrite <- list_fmap_compose. Qed.

(** A normal run of [remap_file] on a fully mapped file, with what the file
    holds afterwards. *)
Lemma remap_file_run mapping fs path content :
  files fs !! path = Some content → fully_mapped mapping content →
  ∃ fs1 content1,
    remap_file path mapping fs = (fs1, Ok (needs_rewrite mapping content))
    ∧ files fs1 !! path = Some content1
    ∧ line_id <$> label_lines content1 = line_dst mapping <$> label_lines content
    ∧ line_coords <$> label_lines content1 = line_coords <$> label_lines content.
Proof.
  intros Hfile Hmapped.
  destruct (fully_mapped_rewrite _ _ Hmapped) as [out Hout].
  destruct (remap_file_reads mapping fs path content out Hfile Hout)
    as (content1 & Hfile1 & Hids & Hcos & _).
  rewrite (remap_file_ok _ _ _ _ _ Hfile Hout).
  destruct (needs_rewrite mapping content); by eexists _, content1.
Qed.

(** Without [strip] too, the written text splits into the lines written. *)
Lemma splitlines_terminated out :
  out ≠ [] → Forall plain_line out →
  splitlines (join newline out ++ newline) = out.
Proof.
  intros Hne Hplain. induction Hplain as [|l ls Hl Hls IH]; [done|].
  destruct ls as [|l' ls].
  - simpl. rewrite <- (app_nil_r newline) at 1.
    by rewrite splitlines_line_app by apply Hl.
  - rewrite join_cons, <- !app_assoc.
    rewrite splitlines_line_app by apply Hl. by rewrite IH.
Qed.

End RemapTwice.

Section SplitOn.
Import Py.

Lemma split_on_nonempty sep s : split_on sep s ≠ [].
Proof.
  destruct s as [|c s]; simpl; [done|].
  destruct (Ascii.eqb c sep); [done|]. by destruct (split_on sep s).
Qed.

Lemma split_on_plain sep s :
  sep ∉ s → split_on sep s = [s].
Proof.
  induction s as [|c s IH]; [done|].
  intros [Hc Hs]%not_elem_of_cons. simpl.
  rewrite (proj2 (Ascii.eqb_neq c sep)) by done. by rewrite IH.
Qed.

Lemma split_on_app sep a b :
  sep ∉ a → split_on sep (a ++ sep :: b) = a :: split_on sep b.
Proof.
  induction a as [|c a IH]; intros Ha.
  - simpl. by rewrite Ascii.eqb_refl.
  - apply not_elem_of_cons in Ha as [Hc Ha]. simpl.
    rewrite (proj2 (Ascii.eqb_neq c sep)) by done. by rewrite IH.
Qed.

(** The pieces hold no separator, and joined by it they give the text back. *)
Lemma split_on_pieces sep s : Forall (λ piece, sep ∉ piece) (split_on sep s).
Proof.
  induction s as [|c s IH]; simpl.
  - repeat constructor. apply not_elem_of_nil.
  - destruct (Ascii.eqb c sep) eqn:Hc.
    + constructor; [apply not_elem_of_nil|done].
    + apply Ascii.eqb_neq in Hc.
      destruct (split_on sep s) as [|p ps]; simpl.
      * repeat constructor. apply not_elem_of_cons. split; [done|apply not_elem_of_nil].
      * inversion IH; subst. constructor; [|done].
        apply not_elem_of_cons. by split.
Qed.

Lemma join_split_on sep s : join [sep] (split_on sep s) = s.
Proof.
  induction s as [|c s IH]; [done|]. simpl.
  pose proof (split_on_nonempty sep s) as Hne.
  destruct (Ascii.eqb c sep) eqn:Hc.
  - apply Ascii.eqb_eq in Hc as ->.
    destruct (split_on sep s) as [|p ps]; [done|]. simpl in *. by rewrite IH.
  - destruct (split_on sep s) as [|p ps]; [done|]. simpl in *.
    destruct ps; simpl in *; by rewrite <- IH.
Qed.

(** The characters of [str(n)]: a minus sign or digits. *)
Lemma str_chars n : Forall (λ c, is_digit c = true ∨ c = "-"%char) (str n).
Proof.
  assert (∀ m, 0 <= m →
            Forall (λ c, is_digit c = true ∨ c = "-"%char) (natural_digits m)) as Hd.
  { intros m Hm. eapply Forall_impl; [by apply digits_of_digits|]. by left. }
  destruct (Z.lt_ge_cases n 0) as [Hn|Hn].
  - rewrite str_neg by done. constructor; [by right|]. apply Hd. lia.
  - rewrite str_nonneg by done. by apply Hd.
Qed.

Lemma str_no_colon n : ":"%char ∉ str n.
Proof.
  intros Hin. pose proof (str_chars n) as Hall.
  rewrite Forall_forall in Hall. by destruct (Hall _ Hin) as [?|?].
Qed.

End SplitOn.

Section Clamps.
Import (hints) Num.

(** In binary64 the lower clamp never lets a negative value or a NaN
    through. *)
Lemma binary64_lt_le a b : PrimFloat.ltb a b = true → PrimFloat.leb a b = true.
Proof.
  rewrite FloatAxioms.ltb_spec, FloatAxioms.leb_spec. unfold SFltb, SFleb.
  by destruct (SFcompare _ _) as [[]|].
Qed.

Lemma binary64_max_zero x : PrimFloat.leb 0 (Num.max (F:=float) 0%float x) = true.
Proof.
  unfold Num.max. simpl. destruct (PrimFloat.ltb 0 x) eqn:Hlt.
  - by apply binary64_lt_le.
  - reflexivity.
Qed.

Lemma draw_boxes_cons {F : Type} `{Num.Arith F} width height
    (record : Preview.label_record (F:=F)) rest class_names :
  Preview.draw_boxes width height (record :: rest) class_names
  = let '(cls_id, cx, cy, w, h) := record in
    match Preview.colour_of cls_id with
    | Raise e => Raise e
    | Ok color =>
        match Preview.denorm_box cx cy w h width height with
        | Raise e => Raise e
        | Ok rect =>
            match Preview.label_of class_names cls_id with
            | Raise e => Raise e
            | Ok label =>
                match Preview.draw_boxes width height rest class_names with
                | Raise e => Raise e
                | Ok drawn => Ok (Preview.Annotation color rect label :: drawn)
                end
            end
        end
    end.
Proof. by destruct record as [[[[cls_id cx] cy] w] h]. Qed.

Lemma label_of_total class_names cls_id :
  - Z.of_nat (length class_names) <= cls_id →
  ∃ label, Preview.label_of class_names cls_id = Ok label.
Proof.
  intros Hge. unfold Preview.label_of.
  destruct (cls_id <? Z.of_nat (length class_names)) eqn:Hlt; [|by eexists].
  apply Z.ltb_lt in Hlt.
  destruct (getitem_in_range class_names cls_id) as [name Hname]; [lia|].
  rewrite Hname. by eexists.
Qed.

Lemma label_of_below class_names cls_id :
  cls_id < - Z.of_nat (length class_names) →
  Preview.label_of class_names cls_id = Raise IndexError.
Proof.
  intros Hlt. unfold Preview.label_of.
  rewrite (proj2 (Z.ltb_lt _ _)) by lia. by rewrite getitem_below.
Qed.

Lemma colour_of_total cls_id : ∃ c, Preview.colour_of cls_id = Ok c.
Proof.
  unfold Preview.colour_of.
  pose proof (Z.mod_pos_bound cls_id (Z.of_nat (length Preview.DEFAULT_COLORS))
                ltac:(done)) as Hmod.
  destruct (getitem_in_range Preview.DEFAULT_COLORS
              (cls_id mod Z.of_nat (length Preview.DEFAULT_COLORS)))
    as [c Hc]; [lia|].
  rewrite Hc. by eexists.
Qed.

End Clamps.

Section Shuffle.
Import Py FS Preview.

Variable rng : Type.
Variable randbelow : nat → rng → nat * rng.

Lemma swap_permutation {A} (x : list A) (i j : nat) : swap x i j ≡ₚ x.
Proof.
  unfold swap. destruct (x !! i) as [a|] eqn:Hi; [|done].
  destruct (x !! j) as [b|] eqn:Hj; [|done].
  by apply Permutation_insert_swap.
Qed.

Lemma shuffle_from_permutation {A} (i : nat) (x : list A) (g : rng) :
  (shuffle_from rng randbelow i x g).1 ≡ₚ x.
Proof.
  revert x g. induction i as [|i IH]; intros x g; [done|].
  cbn [shuffle_from]. destruct (randbelow (S (S i)) g) as [j g'].
  rewrite IH. apply swap_permutation.
Qed.

Lemma shuffle_permutation {A} (x : list A) (g : rng) :
  (shuffle rng randbelow x g).1 ≡ₚ x.
Proof. apply shuffle_from_permutation. Qed.

(** What [pick_label_files] slices: a rearrangement of the label files. *)
Lemma picked_from fs labels_dir count randomize g :
  ∃ files,
    files ≡ₚ glob_txt fs labels_dir
    ∧ (pick_label_files rng randbelow fs labels_dir count randomize g).1
      = slice_to files count.
Proof.
  unfold pick_label_files. destruct randomize.
  - destruct (shuffle rng randbelow (sorted (glob_txt fs labels_dir)) g)
      as [files g'] eqn:Hs.
    exists files. split; [|done].
    pose proof (shuffle_permutation (sorted (glob_txt fs labels_dir)) g) as Hp.
    rewrite Hs in Hp. simpl in Hp. by rewrite Hp, sorted_permutation.
  - exists (sorted (glob_txt fs labels_dir)). split; [apply sorted_permutation|done].
Qed.

Lemma slice_to_length {A} (l : list A) (count : Z) :
  Z.of_nat (length (slice_to l count))
  = if count <? 0 then Z.max 0 (Z.of_nat (length l) + count)
    else Z.min count (Z.of_nat (length l)).
Proof.
  unfold slice_to. rewrite length_take.
  destruct (count <? 0) eqn:Hc.
  - apply Z.ltb_lt in Hc. rewrite (Z.add_comm count). lia.
  - apply Z.ltb_ge in Hc. lia.
Qed.

Lemma slice_to_sublist {A} (l : list A) (count : Z) : slice_to l count `sublist_of` l.
Proof. unfold slice_to. apply sublist_take. Qed.

End Shuffle.

Section Stems.
Import Py FS Preview PreviewMain.

Lemma t_app s1 s2 : t (s1 +:+ s2) = t s1 ++ t s2.
Proof. induction s1 as [|c s1 IH]; [done|]. simpl. by rewrite <- IH. Qed.

Lemma text_string_t s : text_string (t s) = s.
Proof. apply string_of_list_ascii_of_string. Qed.

Lemma cons_first_last c (l : list text) d :
  (2 <= length l)%nat → List.last (cons_first c l) d = List.last l d.
Proof. destruct l as [|p [|q l]]; simpl; [lia|lia|done]. Qed.

Lemma split_on_app_length sep a b : (2 <= length (split_on sep (a ++ sep :: b)))%nat.
Proof.
  induction a as [|c a IH]; simpl.
  - rewrite Ascii.eqb_refl. simpl.
    pose proof (split_on_nonempty sep b). destruct (split_on sep b); simpl; [done|lia].
  - destruct (Ascii.eqb c sep); simpl; [lia|].
    destruct (split_on sep (a ++ sep :: b)); simpl in *; lia.
Qed.

(** The name of a path: what follows its last separator. *)
Lemma last_split_on sep a b :
  sep ∉ b → List.last (split_on sep (a ++ sep :: b)) [] = b.
Proof.
  intros Hb. induction a as [|c a IH]; simpl.
  - rewrite Ascii.eqb_refl, split_on_plain by done. done.
  - destruct (Ascii.eqb c sep) eqn:Hc.
    + pose proof (split_on_app_length sep a b).
      destruct (split_on sep (a ++ sep :: b)) as [|p ps] eqn:Hs; [simpl in *; lia|].
      by rewrite <- IH.
    + rewrite cons_first_last by apply split_on_app_length. done.
Qed.

Lemma rfind_none c s : c ∉ s → rfind c s = None.
Proof.
  induction s as [|d s IH]; [done|]. intros [Hd Hs]%not_elem_of_cons. simpl.
  rewrite IH by done. by rewrite (proj2 (Ascii.eqb_neq d c)) by done.
Qed.

Lemma rfind_last c a b : c ∉ b → rfind c (a ++ c :: b) = Some (length a).
Proof.
  intros Hb. induction a as [|d a IH]; simpl.
  - by rewrite rfind_none, Ascii.eqb_refl.
  - by rewrite IH.
Qed.

Lemma name_of_join d name :
  "/"%char ∉ t name → name_of (t (path_join d name)) = t name.
Proof.
  intros Hname. unfold name_of, path_join. rewrite !t_app.
  change (t "/" ++ t name) with ("/"%char :: t name). by apply last_split_on.
Qed.

Lemma stem_of_txt base :
  base ≠ [] → stem_of_name (base ++ t ".txt") = base.
Proof.
  intros Hne. unfold stem_of_name.
  change (t ".txt") with ("."%char :: t "txt").
  rewrite rfind_last by (apply (bool_decide_unpack _); vm_compute; exact I).
  rewrite length_app. simpl length.
  assert (0 < length base)%nat as Hlen by (destruct base; simpl; [done|lia]).
  replace ((0 <? length base) && (length base <? length base + 4 - 1))%nat
    with true.
  - by rewrite take_app_length.
  - symmetry. apply andb_true_intro. split; apply Nat.ltb_lt; lia.
Qed.

End Stems.

(** ** The previewer on what the remapper wrote *)

Section Relabelling.
Import Py FS Remap Preview.
Context {F : Type} `{Num.Arith F}.
Variable mapping : gmap Z Z.

Lemma float_of_Ok token (x : F) : float_of token = Ok x → Num.of_str token = Some x.
Proof. unfold float_of. destruct (Num.of_str token); congruence. Qed.

Lemma blank_nonempty l : blank l = false → l ≠ [].
Proof. by intros Hb ->. Qed.

(** Where [parse_labels] returns, the blank lines it passed over were empty. *)
Lemma parse_lines_nonblank lines (acc boxes : list (label_record (F:=F))) :
  parse_lines lines acc = Ok boxes →
  parse_lines (filter (λ l, blank l = false) lines) acc = Ok boxes.
Proof.
  revert acc. induction lines as [|l lines IH]; intros acc; [done|].
  destruct (blank l) eqn:Hb.
  - rewrite filter_cons_False by congruence.
    destruct l as [|c l].
    + rewrite parse_lines_empty. apply IH.
    + by rewrite parse_lines_whitespace.
  - rewrite filter_cons_True by done.
    pose proof (blank_nonempty l Hb) as Hne.
    destruct l as [|c l]; [done|]. cbn [parse_lines is_empty].
    destruct (split (c :: l)) as [|cls [|cx [|cy [|w [|h [|? ?]]]]]]; try done.
    destruct (int cls) as [cls_id|]; [|done].
    destruct (float_of cx) as [fx|]; [|done].
    destruct (float_of cy) as [fy|]; [|done].
    destruct (float_of w) as [fw|]; [|done].
    destruct (float_of h) as [fh|]; [|done]. apply IH.
Qed.

(** The records of the rewritten lines are the records of the old lines,
    relabelled. *)
Lemma parse_lines_rewritten lines out (acc acc' boxes : list (label_record (F:=F))) :
  Forall (λ l, blank l = false) lines →
  mapM (rewrite_line mapping) lines = Some out →
  parse_lines lines acc = Ok boxes →
  Forall2 (relabelled mapping) acc acc' →
  ∃ boxes', parse_lines out acc' = Ok boxes' ∧ Forall2 (relabelled mapping) boxes boxes'.
Proof.
  revert out acc acc'. induction lines as [|l lines IH]; intros out acc acc' Hnb Hout Hparse Hacc.
  - injection Hout as <-. injection Hparse as <-. by exists acc'.
  - apply mapM_cons_Some in Hout as (y & ys & Hy & Hys & ->).
    inversion Hnb as [|? ? Hb Hnb']; subst.
    pose proof (blank_nonempty l Hb) as Hne.
    pose proof (rewrite_line_reads mapping _ _ Hy) as (_ & _ & Hti).
    apply rewrite_line_Some in Hy as (dst & Hdst & ->).
    pose proof (split_tokens l) as Htok.
    unfold line_dst, line_id in Hdst. unfold line_coords in *.
    destruct l as [|c l]; [done|]. cbn [parse_lines is_empty] in Hparse.
    destruct (split (c :: l)) as [|cls [|cx [|cy [|w [|h [|? ?]]]]]]; try done.
    destruct (int cls) as [cls_id|] eqn:Hcls; [|done].
    destruct (float_of cx) as [fx|] eqn:Hcx; [|done].
    destruct (float_of cy) as [fy|] eqn:Hcy; [|done].
    destruct (float_of w) as [fw|] eqn:Hw; [|done].
    destruct (float_of h) as [fh|] eqn:Hh; [|done].
    cbn [mbind option_bind tail] in *.
    inversion Htok as [|? ? _ Htok']; subst.
    rewrite (parse_lines_record _ ys acc' (str dst) cx cy w h dst fx fy fw fh).
    + eapply IH; [done|done|exact Hparse|].
      apply Forall2_app; [done|]. constructor; [|constructor]. by split_and!.
    + apply blank_nonempty. by apply tidy_not_blank.
    + apply split_join. constructor; [apply str_token|done].
    + apply int_str.
    + by apply float_of_Ok.
    + by apply float_of_Ok.
    + by apply float_of_Ok.
    + by apply float_of_Ok.
Qed.

(** Where no line moves, every class ID read is mapped to itself. *)
Lemma parse_lines_fixed lines (acc boxes : list (label_record (F:=F))) :
  Forall (λ l, is_Some (line_dst mapping l) ∧ moved mapping l = false) lines →
  parse_lines lines acc = Ok boxes →
  Forall (λ b, relabelled mapping b b) acc →
  Forall (λ b, relabelled mapping b b) boxes.
Proof.
  revert acc. induction lines as [|l lines IH]; intros acc Hfix Hparse Hacc.
  - by injection Hparse as <-.
  - inversion Hfix as [|? ? [[dst Hdst] Hmv] Hfix']; subst.
    destruct l as [|c l]; [rewrite parse_lines_empty in Hparse; by eapply IH|].
    unfold moved in Hmv. apply bool_decide_eq_false in Hmv.
    assert (line_id (c :: l) = Some dst) as Hid.
    { destruct (decide (line_dst mapping (c :: l) = line_id (c :: l))) as [Heq|Hneq];
        [congruence|by destruct Hmv]. }
    unfold line_dst in Hdst. rewrite Hid in Hdst. unfold line_id in Hid.
    cbn [parse_lines is_empty] in Hparse.
    destruct (split (c :: l)) as [|cls [|cx [|cy [|w [|h [|? ?]]]]]]; try done.
    rewrite Hid in Hparse.
    destruct (float_of cx) as [fx|]; [|done].
    destruct (float_of cy) as [fy|]; [|done].
    destruct (float_of w) as [fw|]; [|done].
    destruct (float_of h) as [fh|]; [|done].
    eapply IH; [done|exact Hparse|].
    apply Forall_app. split; [done|]. constructor; [|constructor]. by split_and!.
Qed.

(** Every rewritten line is not blank and starts with an integer. *)
Lemma rewritten_lines_ids lines out :
  mapM (rewrite_line mapping) lines = Some out →
  Forall (λ y, blank y = false ∧ is_Some (line_id y)) out.
Proof.
  revert out. induction lines as [|l lines IH]; intros out.
  - intros [= <-]. constructor.
  - intros (y & ys & Hy & Hys & ->)%mapM_cons_Some.
    constructor; [|by apply IH].
    pose proof (rewrite_line_reads mapping _ _ Hy) as (Hid & _ & Hti).
    split; [by apply tidy_not_blank|].
    apply rewrite_line_Some in Hy as (dst & Hdst & _). rewrite Hid, Hdst. by eexists.
Qed.

(** On lines that start with an integer, [parse_labels] fails only for the
    number of tokens or for a number it cannot read. *)
Lemma parse_lines_failures lines (acc : list (label_record (F:=F))) e :
  Forall (λ y, blank y = false ∧ is_Some (line_id y)) lines →
  parse_lines lines acc = Raise e →
  (∃ n, e = UnpackError 5 n ∧ n ≠ 0%nat ∧ n ≠ 5%nat) ∨ (∃ token, e = FloatLiteralError token).
Proof.
  revert acc. induction lines as [|l lines IH]; intros acc Hall Hparse; [done|].
  inversion Hall as [|? ? [Hb [id Hid]] Hall']; subst.
  pose proof (blank_nonempty l Hb) as Hne.
  destruct l as [|c l]; [done|]. cbn [parse_lines is_empty] in Hparse.
  unfold line_id in Hid. unfold float_of in Hparse.
  destruct (split (c :: l)) as [|cls [|cx [|cy [|w [|h [|? ?]]]]]] eqn:Hsplit;
    try (injection Hparse as <-; left; eexists; split_and!; [done|simpl; lia..]).
  - done.
  - rewrite Hid in Hparse.
    destruct (Num.of_str cx) as [fx|]; [|injection Hparse as <-; right; by eexists].
    destruct (Num.of_str cy) as [fy|]; [|injection Hparse as <-; right; by eexists].
    destruct (Num.of_str w) as [fw|]; [|injection Hparse as <-; right; by eexists].
    destruct (Num.of_str h) as [fh|]; [|injection Hparse as <-; right; by eexists].
    by eapply IH.
Qed.

End Relabelling.

(** ** The conversion of an [int] to binary64 gives no NaN *)

Section Binary64Conversions.
Import (hints) Num.

Lemma shr_1_nonneg mrs : 0 <= shr_m mrs → 0 <= shr_m (shr_1 mrs).
Proof. destruct mrs as [[|[p|p|]|p] r s]; simpl; lia. Qed.

Lemma iter_pos_shr_1_nonneg p mrs :
  0 <= shr_m mrs → 0 <= shr_m (SpecFloat.iter_pos shr_1 p mrs).
Proof.
  revert mrs. induction p as [p IH|p IH|]; intros mrs Hm; simpl.
  - by apply IH, IH, shr_1_nonneg.
  - by apply IH, IH.
  - by apply shr_1_nonneg.
Qed.

Lemma shr_fexp_nonneg m e l : 0 <= m → 0 <= shr_m (shr_fexp prec emax m e l).1.
Proof.
  intros Hm. unfold shr_fexp, shr.
  assert (0 <= shr_m (shr_record_of_loc m l)) as Hrec.
  { by destruct l as [|[]]. }
  destruct (_ - e); [done| |done]. simpl. by apply iter_pos_shr_1_nonneg.
Qed.

Lemma round_nearest_even_nonneg m l : 0 <= m → 0 <= round_nearest_even m l.
Proof.
  intros Hm. unfold round_nearest_even.
  destruct l as [|[]]; [done| |done|lia]. destruct (Z.even m); lia.
Qed.

Lemma binary_round_aux_not_nan sx mx ex lx :
  0 <= mx → binary_round_aux prec emax sx mx ex lx ≠ S754_nan.
Proof.
  intros Hm. unfold binary_round_aux.
  pose proof (shr_fexp_nonneg mx ex lx Hm) as H1.
  destruct (shr_fexp prec emax mx ex lx) as [mrs' e']. simpl in H1.
  pose proof (shr_fexp_nonneg _ e' loc_Exact
                (round_nearest_even_nonneg _ (loc_of_shr_record mrs') H1)) as H2.
  destruct (shr_fexp prec emax _ e' loc_Exact) as [mrs'' e'']. simpl in H2.
  destruct (shr_m mrs'') as [|m|m]; [done| |lia].
  by destruct (_ <=? _).
Qed.

Lemma binary_round_not_nan sx mx ex : binary_round prec emax sx mx ex ≠ S754_nan.
Proof.
  unfold binary_round. destruct (shl_align _ _ _) as [mz ez].
  by apply binary_round_aux_not_nan.
Qed.

Lemma binary_normalize_not_nan m e szero :
  binary_normalize prec emax m e szero ≠ S754_nan.
Proof. destruct m; [done|apply binary_round_not_nan..]. Qed.

Lemma SFldexp_not_nan x e : x ≠ S754_nan → SFldexp prec emax x e ≠ S754_nan.
Proof. destruct x; try done. intros _. apply binary_round_not_nan. Qed.

Lemma SFleb_refl x : x ≠ S754_nan → SFleb x x = true.
Proof.
  intros Hx. unfold SFleb, SFcompare.
  destruct x as [s|s| |s m e]; [done|by destruct s|done|].
  rewrite Z.compare_refl, Pos.compare_cont_refl. by destruct s.
Qed.

(** What [float(n)] returns for an [int] compares equal to itself. *)
Lemma binary64_of_int_ordered n x :
  Num.of_int (F:=float) n = Some x → PrimFloat.leb x x = true.
Proof.
  simpl. unfold Num.binary64_of_int. intros Hx.
  rewrite FloatAxioms.leb_spec. apply SFleb_refl.
  destruct (binary_normalize prec emax n 0 false) as [s|s| |s m e] eqn:Hn.
  - injection Hx as <-. by destruct s.
  - done.
  - by destruct (binary_normalize_not_nan n 0 false).
  - injection Hx as <-.
    assert (∀ f e', Prim2SF f ≠ S754_nan → Prim2SF (FloatOps.Z.ldexp f e') ≠ S754_nan)
      as Hld.
    { intros f e' Hf. unfold FloatOps.Z.ldexp. rewrite ldshiftexp_spec.
      by apply SFldexp_not_nan. }
    unfold SF2Prim.
    specialize (Hld (of_uint63 (Uint63Axioms.of_Z (Z.pos m))) e).
    rewrite of_uint63_spec in Hld.
    specialize (Hld (binary_normalize_not_nan _ 0 false)).
    destruct s; [|done].
    rewrite opp_spec. by destruct (Prim2SF _).
Qed.

Lemma binary64_min_bound (a b : float) :
  PrimFloat.leb a a = true → PrimFloat.leb (Num.min a b) a = true.
Proof.
  intros Ha. unfold Num.min. simpl. destruct (PrimFloat.ltb b a) eqn:Hlt; [|done].
  by apply binary64_lt_le.
Qed.

End Binary64Conversions.

(** * The properties of the specification *)

(** Closes a decidable goal by evaluating its decision procedure. *)
Ltac by_evaluation := apply (bool_decide_unpack _); vm_compute; exact I.

Section RemapperProperties.
Import Py FS Remap.

(** C1: when a label file holds a class ID that is no key of the mapping,
    [remap_file] raises the unknown-class-ID error that names the file and
    the ID, and leaves the file system as it was; [remap_split] ends with the
    same error, and neither the failing file nor any file after it in the
    enumeration is written. *)
Theorem unknown_class_id_aborts
    (mapping : gmap Z Z) (fs : filesystem) (base_dir split : string)
    (names pre post : list string) (f : string) (content : text)
    (before after : list text) (l : text) (k : Z) :
  dirs fs !! labels_dir_of base_dir split = Some names →
  NoDup names →
  glob_txt fs (labels_dir_of base_dir split) = pre ++ f :: post →
  Forall (mapped_file mapping fs) pre →
  files fs !! f = Some content →
  label_lines content = before ++ l :: after →
  Forall (λ l, is_Some (line_dst mapping l)) before →
  line_id l = Some k →
  mapping !! k = None →
  remap_file f mapping fs = (fs, Raise (UnknownClassId f k))
  ∧ message (UnknownClassId f k)
    = Some ("Label " +:+ f +:+ " contains unknown class id "
              +:+ text_string (str k) +:+ ".")
  ∧ ∃ fs' ws,
      remap_split base_dir split mapping fs = (fs', Raise (UnknownClassId f k))
      ∧ writes fs' = writes fs ++ ws
      ∧ ∀ p, p ∈ f :: post → (p ∉ ws) ∧ files fs' !! p = files fs !! p.
Proof.
  intros Hdir Hnames Hglob Hpre Hfile Hlines Hbefore Hid Hk.
  split; [by eapply remap_file_fail|]. split; [done|].
  pose proof (glob_txt_NoDup fs _ names Hdir Hnames) as Hnd.
  rewrite Hglob in Hnd.
  destruct (remap_each_fail mapping pre f post 0 fs content before l after k)
    as (fs' & Hrun & _ & Hwrites & Hother); try done.
  exists fs', (rewritten_files mapping fs pre).
  unfold remap_split, is_dir. rewrite Hdir, bool_decide_true by eauto.
  rewrite Hglob. split; [done|]. split; [done|].
  intros p Hp.
  assert (p ∉ pre) as Hout.
  { apply NoDup_app in Hnd as (_ & Hdisj & _). intros Hin. by apply (Hdisj p). }
  split; [|by apply Hother].
  intros Hin. apply Hout. unfold rewritten_files in Hin.
  by apply list_elem_of_filter in Hin as [_ ?].
Qed.

(** Scenario C: page2.txt holds class ID 5, the mapping covers 0, 1 and 2. *)
Lemma unknown_class_id_aborts_witness :
  remap_file (Scenario.page "page2.txt") Scenario.mapping_C Scenario.fs_C
  = (Scenario.fs_C, Raise (UnknownClassId (Scenario.page "page2.txt") 5))
  ∧ message (UnknownClassId (Scenario.page "page2.txt") 5)
    = Some ("Label " +:+ Scenario.page "page2.txt" +:+ " contains unknown class id "
              +:+ text_string (str 5) +:+ ".")
  ∧ ∃ fs' ws,
      remap_split "data" "training" Scenario.mapping_C Scenario.fs_C
      = (fs', Raise (UnknownClassId (Scenario.page "page2.txt") 5))
      ∧ writes fs' = writes Scenario.fs_C ++ ws
      ∧ ∀ p, p ∈ [Scenario.page "page2.txt"; Scenario.page "page3.txt"] →
             (p ∉ ws) ∧ files fs' !! p = files Scenario.fs_C !! p.
Proof.
  apply (unknown_class_id_aborts Scenario.mapping_C Scenario.fs_C "data" "training"
           ["page1.txt"; "page2.txt"; "README.md"; "page3.txt"]
           [Scenario.page "page1.txt"] [Scenario.page "page3.txt"]
           (Scenario.page "page2.txt") Scenario.content_C2
           [t "0 0.5 0.5 0.2 0.2"] [t "2 0.3 0.3 0.1 0.1"] (t "5 0.4 0.4 0.1 0.1") 5).
  - reflexivity.
  - by_evaluation.
  - reflexivity.
  - constructor; [|constructor].
    exists Scenario.content_C1. split; [reflexivity|]. unfold fully_mapped. by_evaluation.
  - reflexivity.
  - reflexivity.
  - by_evaluation.
  - reflexivity.
  - reflexivity.
Defined.

(** C2: for a label file whose class IDs are all keys of the mapping,
    [remap_file] returns normally; afterwards the file reads, line by line,
    as the destination IDs followed by the old coordinate tokens; it returns
    [True] and writes exactly when some ID moved. [remap_split] over such
    files returns the number of files written. In scenario A the file
    [2 0.5 0.5 0.2 0.2] under [{2: 0}] becomes [0 0.5 0.5 0.2 0.2] and
    [remap_split] returns 1. *)
Theorem mapped_ids_are_rewritten :
  (∀ (mapping : gmap Z Z) (fs : filesystem) (path : string) (content : text),
      files fs !! path = Some content →
      fully_mapped mapping content →
      ∃ fs' content',
        remap_file path mapping fs = (fs', Ok (needs_rewrite mapping content))
        ∧ files fs' !! path = Some content'
        ∧ line_id <$> label_lines content'
          = line_dst mapping <$> label_lines content
        ∧ line_coords <$> label_lines content'
          = line_coords <$> label_lines content
        ∧ fs' = (if needs_rewrite mapping content
                 then write_text path content' fs else fs))
  ∧ (∀ (mapping : gmap Z Z) (fs : filesystem) (base_dir split : string)
       (names : list string),
      dirs fs !! labels_dir_of base_dir split = Some names →
      NoDup names →
      Forall (mapped_file mapping fs) (glob_txt fs (labels_dir_of base_dir split)) →
      ∃ fs' ws,
        remap_split base_dir split mapping fs = (fs', Ok (Z.of_nat (length ws)))
        ∧ writes fs' = writes fs ++ ws
        ∧ ws = rewritten_files mapping fs (glob_txt fs (labels_dir_of base_dir split)))
  ∧ remap_split "data" "training" Scenario.mapping_A Scenario.fs_A
    = (write_text (Scenario.page "page1.txt") (Scenario.line "0 0.5 0.5 0.2 0.2")
         Scenario.fs_A, Ok 1).
Proof.
  split; [|split].
  - intros mapping fs path content Hfile Hmapped.
    destruct (fully_mapped_rewrite _ _ Hmapped) as [out Hout].
    destruct (remap_file_reads mapping fs path content out Hfile Hout)
      as (content' & Hfile' & Hids & Hcos & _).
    rewrite (remap_file_ok _ _ _ _ _ Hfile Hout).
    destruct (needs_rewrite mapping content) eqn:Hneeds.
    + exists (write_text path (written out) fs), content'.
      assert (content' = written out) as ->.
      { simpl in Hfile'. rewrite lookup_insert_eq in Hfile'. congruence. }
      done.
    + by exists fs, content'.
  - intros mapping fs base_dir split names Hdir Hnames Hall.
    pose proof (glob_txt_NoDup fs _ names Hdir Hnames) as Hnd.
    destruct (remap_each_ok mapping _ 0 fs Hnd Hall)
      as (fs' & Hrun & _ & Hwrites & _).
    eexists fs', _. unfold remap_split, is_dir.
    rewrite Hdir, bool_decide_true by eauto. rewrite Hrun. done.
  - vm_compute. reflexivity.
Qed.

(** Scenario C's first file, whose class IDs 2 and 1 are both mapped. *)
Lemma mapped_ids_are_rewritten_witness :
  ∃ fs' content',
    remap_file (Scenario.page "page1.txt") Scenario.mapping_C Scenario.fs_C
    = (fs', Ok (needs_rewrite Scenario.mapping_C Scenario.content_C1))
    ∧ files fs' !! Scenario.page "page1.txt" = Some content'
    ∧ line_id <$> label_lines content'
      = line_dst Scenario.mapping_C <$> label_lines Scenario.content_C1
    ∧ line_coords <$> label_lines content'
      = line_coords <$> label_lines Scenario.content_C1
    ∧ fs' = (if needs_rewrite Scenario.mapping_C Scenario.content_C1
             then write_text (Scenario.page "page1.txt") content' Scenario.fs_C
             else Scenario.fs_C).
Proof.
  apply (proj1 mapped_ids_are_rewritten Scenario.mapping_C Scenario.fs_C
           (Scenario.page "page1.txt") Scenario.content_C1).
  - reflexivity.
  - unfold fully_mapped. by_evaluation.
Defined.

(** C3: when the mapping sends every class ID of a label file to itself,
    [remap_file] returns [False] and the file system, write log included, is
    what it was. After any normal return of [remap_file], a second run with a
    mapping that is the identity on the IDs the file now holds changes
    nothing. *)
Theorem identity_mapping_is_silent :
  (∀ (mapping : gmap Z Z) (fs : filesystem) (path : string) (content : text),
      files fs !! path = Some content →
      Forall (λ l, is_Some (line_id l) ∧ line_dst mapping l = line_id l)
        (label_lines content) →
      remap_file path mapping fs = (fs, Ok false))
  ∧ (∀ (mapping : gmap Z Z) (fs fs1 : filesystem) (path : string) (changed : bool),
      remap_file path mapping fs = (fs1, Ok changed) →
      ∃ content1,
        files fs1 !! path = Some content1
        ∧ ∀ mapping2 : gmap Z Z,
            Forall (λ l, line_dst mapping2 l = line_id l) (label_lines content1) →
            remap_file path mapping2 fs1 = (fs1, Ok false)).
Proof.
  split.
  - intros mapping fs path content. apply remap_file_fixed.
  - intros mapping fs fs1 path changed Hrun.
    apply remap_file_Ok_inv in Hrun as (content & out & Hfile & Hout & -> & ->).
    destruct (remap_file_reads mapping fs path content out Hfile Hout)
      as (content1 & Hfile1 & _ & _ & Hsome).
    exists content1. split; [done|]. intros mapping2 Hfixed.
    apply (remap_file_fixed mapping2 _ path content1 Hfile1).
    rewrite Forall_forall in Hsome, Hfixed |- *. intros l Hl. split; auto.
Qed.

(** Scenario B: class ID 0 under [{0: 0}]. *)
Lemma identity_mapping_is_silent_witness :
  remap_file (Scenario.page "page1.txt") Scenario.mapping_B Scenario.fs_B
  = (Scenario.fs_B, Ok false).
Proof.
  apply (proj1 identity_mapping_is_silent Scenario.mapping_B Scenario.fs_B
           (Scenario.page "page1.txt") (Scenario.line "0 0.5 0.5 0.2 0.2")).
  - reflexivity.
  - by_evaluation.
Defined.

End RemapperProperties.

Section GeometryProperties.
Import Py FS Preview.
Import (hints) Num.

(** C4: [denorm_box] returns exactly
    [(max(0, (cx - w/2) W), max(0, (cy - h/2) H), min(W, (cx + w/2) W),
      min(H, (cy + h/2) H))]: over rationals with the rationals' [max] and
    [min], in binary64 with the IEEE comparison; and for [cx = 0.0],
    [w = 0.2], [W = 100] the first component is [0.0], where the product
    itself is [-10.0]. *)
Theorem denorm_box_formula :
  (∀ (cx cy w h : Q) (W H : Z),
      denorm_box cx cy w h W H
      = Ok (denormalize_formula cx cy w h (inject_Z W) (inject_Z H)))
  ∧ (∀ (cx cy w h : float) (W H : Z) (fW fH : float),
      Num.of_int W = Some fW → Num.of_int H = Some fH →
      denorm_box cx cy w h W H = Ok (denormalize_binary64 cx cy w h fW fH))
  ∧ (∀ (cy h : float) (H : Z) (fH : float),
      Num.of_int H = Some fH →
      ∃ y0 x1 y1 : float,
        denorm_box 0%float cy Scenario.one_fifth h 100 H = Ok (0%float, y0, x1, y1))
  ∧ ((0 - Scenario.one_fifth / 2) * 100)%float = (-10)%float.
Proof.
  split; [exact denorm_box_exact|]. split; [exact denorm_box_binary64|].
  split; [|reflexivity].
  intros cy h H fH HH.
  rewrite (denorm_box_binary64 _ _ _ _ 100 H 100%float fH eq_refl HH).
  unfold denormalize_binary64. by eexists _, _, _.
Qed.

(** A box in the middle of a 100 by 50 image, in binary64. *)
Lemma denorm_box_formula_witness :
  denorm_box 0.5%float 0.5%float 0.25%float 0.25%float 100 50
  = Ok (denormalize_binary64 0.5%float 0.5%float 0.25%float 0.25%float
          100%float 50%float).
Proof.
  apply (proj1 (proj2 denorm_box_formula)
           0.5%float 0.5%float 0.25%float 0.25%float 100 50 100%float 50%float);
    reflexivity.
Defined.

(** C9: over rationals, for positive image dimensions and a box whose
    denormalized corners lie inside the image, re-normalizing the result of
    [denorm_box] gives back [(cx, cy, w, h)]. *)
Theorem denormalize_round_trip (cx cy w h : Q) (W H : Z) :
  0 < W → 0 < H →
  (0 <= (cx - w / 2) * inject_Z W)%Q → (0 <= (cy - h / 2) * inject_Z H)%Q →
  ((cx + w / 2) * inject_Z W <= inject_Z W)%Q →
  ((cy + h / 2) * inject_Z H <= inject_Z H)%Q →
  ∃ corners,
    denorm_box cx cy w h W H = Ok corners
    ∧ let '(cx', cy', w', h') := renormalize corners (inject_Z W) (inject_Z H) in
      (cx' == cx ∧ cy' == cy ∧ w' == w ∧ h' == h)%Q.
Proof.
  intros HW HH Hx0 Hy0 Hx1 Hy1.
  exists (denormalize_formula cx cy w h (inject_Z W) (inject_Z H)).
  split; [apply denorm_box_exact|].
  apply renormalize_denormalize; try done.
  - change 0%Q with (inject_Z 0). by rewrite <- Zlt_Qlt.
  - change 0%Q with (inject_Z 0). by rewrite <- Zlt_Qlt.
Qed.

(** The box of the scenarios, [0.5 0.5 0.2 0.2], on a 100 by 50 image. *)
Lemma denormalize_round_trip_witness :
  ∃ corners,
    denorm_box (1 # 2)%Q (1 # 2)%Q (1 # 5)%Q (1 # 5)%Q 100 50 = Ok corners
    ∧ let '(cx', cy', w', h') := renormalize corners (inject_Z 100) (inject_Z 50) in
      (cx' == 1 # 2 ∧ cy' == 1 # 2 ∧ w' == 1 # 5 ∧ h' == 1 # 5)%Q.
Proof.
  apply (denormalize_round_trip (1 # 2)%Q (1 # 2)%Q (1 # 5)%Q (1 # 5)%Q 100 50);
    vm_compute; congruence.
Defined.

End GeometryProperties.

Section PreviewerProperties.
Import Py FS Preview.
Import (hints) Num.

(** C5, at the input where it fails: a label file with a line of two spaces
    between its two records. The remapper's loop passes over that line and
    sees the two records; [parse_labels] takes it for a record and ends with
    the error of unpacking no token into five names. *)
Theorem whitespace_line_stops_parse_labels :
  Remap.remap_lines "a.txt" {[ 0 := 0; 1 := 1 ]}
    (splitlines (strip Scenario.content_spaced)) false []
  = Ok (false, [t "0 0.5 0.5 0.2 0.2"; t "1 0.5 0.5 0.2 0.2"])
  ∧ parse_labels (F:=float) Scenario.fs_spaced
      (path_join Scenario.preview_labels_dir "a.txt")
    = Raise (UnpackError 5 0).
Proof. split; vm_compute; reflexivity. Qed.

(** C6: with [randomize] false and a count that is not negative,
    [pick_label_files] returns the first [count] paths (all of them when
    there are fewer) of the enumeration sorted in lexicographic order, and
    leaves the generator alone; the result is empty, and no error, when the
    directory is empty or [count] is 0. *)
Theorem first_files_in_sorted_order
    (rng : Type) (randbelow : nat → rng → nat * rng)
    (fs : filesystem) (labels_dir : string) (count : Z) (g : rng) :
  0 <= count →
  pick_label_files rng randbelow fs labels_dir count false g
  = (take (Z.to_nat count) (sorted (glob_txt fs labels_dir)), g)
  ∧ StronglySorted String.le (sorted (glob_txt fs labels_dir))
  ∧ sorted (glob_txt fs labels_dir) ≡ₚ glob_txt fs labels_dir
  ∧ (dirs fs !! labels_dir = Some [] ∨ count = 0 →
     pick_label_files rng randbelow fs labels_dir count false g = ([], g)).
Proof.
  intros Hcount.
  assert (pick_label_files rng randbelow fs labels_dir count false g
          = (take (Z.to_nat count) (sorted (glob_txt fs labels_dir)), g)) as Hpick.
  { unfold pick_label_files. by rewrite slice_to_take. }
  split; [done|]. split; [apply sorted_sorted|]. split; [apply sorted_permutation|].
  rewrite Hpick. intros [Hempty| ->].
  - rewrite (glob_txt_empty _ _ Hempty).
    change (sorted []) with (@nil string). by rewrite take_nil.
  - done.
Qed.

(** Scenario D: three label files, [count = 2]. *)
Lemma first_files_in_sorted_order_witness :
  pick_label_files Z Scenario.lcg_randbelow Scenario.fs_D
    Scenario.preview_labels_dir 2 false 0
  = ([path_join Scenario.preview_labels_dir "a.txt";
      path_join Scenario.preview_labels_dir "b.txt"], 0).
Proof.
  refine (eq_trans
            (proj1 (first_files_in_sorted_order Z Scenario.lcg_randbelow
                      Scenario.fs_D Scenario.preview_labels_dir 2 0 _)) _).
  - lia.
  - vm_compute. reflexivity.
Defined.

(** C7: with [randomize] true, the selection is a function of the seed and of
    the set of label files: two runs of the head of [main] with the same seed
    give the same paths in the same order, whatever state the generator was
    in before and in whatever order the directory is enumerated; and
    [pick_label_files] itself gives the same result from the same generator
    state. *)
Theorem same_seed_same_selection
    (rng : Type) (seed_rng : Z → rng) (randbelow : nat → rng → nat * rng)
    (fs1 fs2 : filesystem) (base_dir split : string) (count seed : Z) (g1 g2 : rng) :
  glob_txt fs1 (path_join (path_join base_dir split) "labels")
  ≡ₚ glob_txt fs2 (path_join (path_join base_dir split) "labels") →
  main_selection rng seed_rng randbelow fs1 base_dir split count true seed g1
  = main_selection rng seed_rng randbelow fs2 base_dir split count true seed g2
  ∧ ∀ g : rng,
      pick_label_files rng randbelow fs1
        (path_join (path_join base_dir split) "labels") count true g
      = pick_label_files rng randbelow fs2
          (path_join (path_join base_dir split) "labels") count true g.
Proof.
  intros Hsame.
  assert (∀ g : rng,
      pick_label_files rng randbelow fs1
        (path_join (path_join base_dir split) "labels") count true g
      = pick_label_files rng randbelow fs2
          (path_join (path_join base_dir split) "labels") count true g) as Hpick.
  { intros g. unfold pick_label_files. by rewrite (sorted_unique _ _ Hsame). }
  split; [|done]. unfold main_selection. by rewrite Hpick.
Qed.

(** Scenario D under two enumeration orders and two earlier generator
    states, seed 7. *)
Lemma same_seed_same_selection_witness :
  main_selection Z Scenario.lcg_seed Scenario.lcg_randbelow Scenario.fs_D
    "data" "validation" 2 true 7 1
  = main_selection Z Scenario.lcg_seed Scenario.lcg_randbelow Scenario.fs_D'
      "data" "validation" 2 true 7 2.
Proof.
  apply (same_seed_same_selection Z Scenario.lcg_seed Scenario.lcg_randbelow
           Scenario.fs_D Scenario.fs_D' "data" "validation" 2 7 1 2).
  by_evaluation.
Defined.

End PreviewerProperties.

Section ResolutionProperties.
Import Py FS Preview.
Import (hints) Num.

(** C8: [find_image] tries [.jpg], [.jpeg], [.png] in this order and returns
    the first candidate that exists, so the [.jpg] path when a [.jpg] and a
    [.png] both exist; it raises exactly when none of the three exists, and
    the error is the no-image-found one, whose message names the stem and
    the directory. *)
Theorem find_image_first_match (fs : filesystem) (images_dir stem : string) :
  find_image fs images_dir stem
  = (if path_exists fs (candidate images_dir stem ".jpg")
     then Ok (candidate images_dir stem ".jpg")
     else if path_exists fs (candidate images_dir stem ".jpeg")
     then Ok (candidate images_dir stem ".jpeg")
     else if path_exists fs (candidate images_dir stem ".png")
     then Ok (candidate images_dir stem ".png")
     else Raise (NoImageFound stem images_dir))
  ∧ (path_exists fs (candidate images_dir stem ".jpg") = true →
     path_exists fs (candidate images_dir stem ".png") = true →
     find_image fs images_dir stem = Ok (candidate images_dir stem ".jpg"))
  ∧ ((∃ e, find_image fs images_dir stem = Raise e)
     ↔ path_exists fs (candidate images_dir stem ".jpg") = false
       ∧ path_exists fs (candidate images_dir stem ".jpeg") = false
       ∧ path_exists fs (candidate images_dir stem ".png") = false)
  ∧ (∀ e, find_image fs images_dir stem = Raise e → e = NoImageFound stem images_dir)
  ∧ message (NoImageFound stem images_dir)
    = Some ("No image file found for " +:+ stem +:+ " in " +:+ images_dir).
Proof.
  rewrite find_image_cases.
  destruct (path_exists fs (candidate images_dir stem ".jpg"));
    destruct (path_exists fs (candidate images_dir stem ".jpeg"));
    destruct (path_exists fs (candidate images_dir stem ".png"));
    (split; [done|]); (split; [done|]); (split; [|split; [|done]]);
    try (intros e [=]; done);
    (split; [intros [e He]; done | intros (? & ? & ?); by eauto]).
Qed.

(** Scenario D: [a.jpg] and [a.png] both exist. *)
Lemma find_image_first_match_witness :
  find_image Scenario.fs_D Scenario.preview_images_dir "a"
  = Ok (candidate Scenario.preview_images_dir "a" ".jpg").
Proof.
  apply (proj1 (proj2 (find_image_first_match Scenario.fs_D
                         Scenario.preview_images_dir "a"))); reflexivity.
Defined.

(** C10: the tag of a box is looked up with one test, [cls_id < len]. A class
    ID from [0] up to the length names its entry; a negative one down to
    minus the length names the entry counted from the end of the list; one
    below that raises IndexError; the made-up tag [id_<cls_id>] is used
    exactly from the length upwards. [parse_labels] reads a class ID of either
    sign, so a negative one does reach the lookup. *)
Theorem tag_of_negative_class_id :
  (∀ (class_names : list string) (cls_id : Z),
      (0 <= cls_id < Z.of_nat (length class_names) →
       ∃ name, class_names !! Z.to_nat cls_id = Some name
               ∧ label_of class_names cls_id = Ok name)
      ∧ (- Z.of_nat (length class_names) <= cls_id < 0 →
         ∃ name,
           class_names !! Z.to_nat (Z.of_nat (length class_names) + cls_id)
           = Some name
           ∧ label_of class_names cls_id = Ok name)
      ∧ (cls_id < - Z.of_nat (length class_names) →
         label_of class_names cls_id = Raise IndexError)
      ∧ (Z.of_nat (length class_names) <= cls_id →
         label_of class_names cls_id = Ok ("id_" +:+ text_string (str cls_id))))
  ∧ (∀ (F : Type) (arith : Num.Arith F) (fs : filesystem) (path : string)
       (cls_id : Z) (cx cy w h : text) (fx fy fw fh : F),
      files fs !! path = Some (record_text cls_id cx cy w h) →
      token cx → token cy → token w → token h →
      Num.of_str cx = Some fx → Num.of_str cy = Some fy →
      Num.of_str w = Some fw → Num.of_str h = Some fh →
      parse_labels fs path = Ok [(cls_id, fx, fy, fw, fh)])
  ∧ (∃ box : float * float * float * float,
      match parse_labels (F:=float) Scenario.fs_D
              (path_join Scenario.preview_labels_dir "c.txt") with
      | Ok labels => draw_boxes 100 50 labels ["header"; "body"; "footer"]
      | Raise e => Raise e
      end
      = Ok [Annotation "#00A1DE" box "footer"]).
Proof.
  split; [|split].
  - intros class_names cls_id. unfold label_of. repeat split.
    + intros Hin. rewrite (proj2 (Z.ltb_lt _ _)) by lia.
      rewrite getitem_front by done.
      destruct (lookup_lt_is_Some_2 class_names (Z.to_nat cls_id)) as [name Hname];
        [lia|].
      exists name. by rewrite Hname.
    + intros Hin. rewrite (proj2 (Z.ltb_lt _ _)) by lia.
      rewrite getitem_back by done.
      destruct (lookup_lt_is_Some_2 class_names
                  (Z.to_nat (Z.of_nat (length class_names) + cls_id)))
        as [name Hname]; [lia|].
      exists name. by rewrite Hname.
    + intros Hin. rewrite (proj2 (Z.ltb_lt _ _)) by lia.
      by rewrite getitem_below.
    + intros Hin. by rewrite (proj2 (Z.ltb_ge _ _)).
  - intros F arith fs path cls_id cx cy w h fx fy fw fh.
    apply parse_labels_record.
  - eexists. vm_compute. reflexivity.
Qed.

(** The default class names and class ID -1: the last name, [footer]. *)
Lemma tag_of_negative_class_id_witness :
  ∃ name,
    ["header"; "body"; "footer"] !! Z.to_nat (Z.of_nat 3 + -1) = Some name
    ∧ label_of ["header"; "body"; "footer"] (-1) = Ok name.
Proof.
  apply (proj1 (proj2 (proj1 tag_of_negative_class_id
                         ["header"; "body"; "footer"] (-1)))).
  simpl. lia.
Defined.

End ResolutionProperties.

Section FurtherProperties.
Import Py FS Remap Preview.
Import (hints) Num.

(** X1: the loop of [remap_file] passes over every blank line, empty or of
    white space only: it does on the lines read what it does on the lines
    that are not blank. *)
Theorem remap_lines_ignores_blank_lines
    (path : string) (mapping : gmap Z Z) (lines : list text)
    (changed : bool) (acc : list text) :
  remap_lines path mapping lines changed acc
  = remap_lines path mapping (filter (λ l, blank l = false) lines) changed acc.
Proof.
  revert changed acc. induction lines as [|l lines IH]; intros changed acc; [done|].
  destruct (blank l) eqn:Hb.
  - rewrite filter_cons_False by congruence.
    rewrite remap_lines_skip by done. apply IH.
  - rewrite filter_cons_True by done. cbn [remap_lines].
    destruct (is_empty (strip l)); [apply IH|].
    destruct (split l) as [|first coords]; [done|].
    destruct (int first) as [src|]; [|done].
    destruct (mapping !! src) as [dst|]; [|done]. apply IH.
Qed.

(** X2: the loop of [parse_labels] passes over every empty line: it does on
    the lines read what it does on the lines that are not empty. *)
Theorem parse_lines_ignores_empty_lines
    (F : Type) (arith : Num.Arith F) (lines : list text)
    (boxes : list (label_record (F:=F))) :
  parse_lines lines boxes = parse_lines (filter (λ l, l ≠ []) lines) boxes.
Proof.
  revert boxes. induction lines as [|l lines IH]; intros boxes; [done|].
  destruct l as [|c l].
  - rewrite filter_cons_False by (intros Hne; by apply Hne).
    rewrite parse_lines_empty. apply IH.
  - rewrite filter_cons_True by done. cbn [parse_lines is_empty].
    destruct (split (c :: l)) as [|cls [|cx [|cy [|w [|h [|? ?]]]]]]; try done.
    destruct (int cls) as [cls_id|]; [|done].
    destruct (float_of cx) as [fx|]; [|done].
    destruct (float_of cy) as [fy|]; [|done].
    destruct (float_of w) as [fw|]; [|done].
    destruct (float_of h) as [fh|]; [|done]. apply IH.
Qed.



(** X4: the outline colour is found for every class ID, negative ones
    included: the palette is indexed modulo its length. *)
Theorem colour_of_every_class_id (cls_id : Z) :
  ∃ c, colour_of cls_id = Ok c ∧ c ∈ DEFAULT_COLORS.
Proof.
  unfold colour_of.
  pose proof (Z.mod_pos_bound cls_id (Z.of_nat (length DEFAULT_COLORS))
                ltac:(done)) as Hmod.
  rewrite getitem_front by done.
  destruct (lookup_lt_is_Some_2 DEFAULT_COLORS
              (Z.to_nat (cls_id mod Z.of_nat (length DEFAULT_COLORS))))
    as [c Hc]; [lia|].
  exists c. rewrite Hc. split; [done|]. by eapply list_elem_of_lookup_2.
Qed.


End FurtherProperties.

Section RemapperFurther.
Import Py FS Remap RemapMain.

(** X6: whatever [remap_split] returns or raises, it keeps the directories and
    the set of files, writes only label files of the split's [labels]
    directory, leaves every file it did not write as it was, and a count it
    returns is the number of its writes. *)
Theorem remap_split_writes_only_labels
    (mapping : gmap Z Z) (fs : filesystem) (base_dir split : string) :
  dirs (remap_split base_dir split mapping fs).1 = dirs fs
  ∧ dom (files (remap_split base_dir split mapping fs).1) = dom (files fs)
  ∧ ∃ ws,
      writes (remap_split base_dir split mapping fs).1 = writes fs ++ ws
      ∧ ws ⊆ glob_txt fs (labels_dir_of base_dir split)
      ∧ (∀ p, p ∉ ws →
           files (remap_split base_dir split mapping fs).1 !! p = files fs !! p)
      ∧ (∀ n, (remap_split base_dir split mapping fs).2 = Ok n →
           n = Z.of_nat (length ws)).
Proof.
  destruct (remap_split base_dir split mapping fs) as [fs' r] eqn:Hrun.
  by apply (remap_split_frame mapping base_dir split fs).
Qed.

(** X7: a rewrite puts the file in one form: one line per record, each line
    its tokens joined by single spaces with nothing before or after them,
    every line ended by a newline; the blank lines of the old file are
    gone. *)
Theorem rewrite_normalises_the_file
    (mapping : gmap Z Z) (fs fs' : filesystem) (path : string) (content : text) :
  files fs !! path = Some content →
  remap_file path mapping fs = (fs', Ok true) →
  ∃ out,
    files fs' !! path = Some (join newline out ++ newline)
    ∧ splitlines (join newline out ++ newline) = out
    ∧ length out = length (label_lines content)
    ∧ Forall (λ l, blank l = false ∧ l = join (t " ") (split l)) out.
Proof.
  intros Hfile Hrun.
  apply remap_file_Ok_inv in Hrun as (content0 & out & Hfile0 & Hout & Hneeds & ->).
  assert (content0 = content) as -> by congruence.
  exists out. split; [simpl; apply lookup_insert_eq|].
  destruct (rewrite_lines_read mapping _ _ Hout) as (_ & _ & Htidy).
  assert (Forall plain_line out) as Hplain.
  { eapply Forall_impl; [exact Htidy|]. by intros l [? _]. }
  assert (out ≠ []) as Hne.
  { intros ->. apply rewrite_lines_length in Hout.
    unfold needs_rewrite in Hneeds. destruct (label_lines content); done. }
  split; [by apply splitlines_terminated|].
  split; [by apply rewrite_lines_length in Hout|].
  clear -Hout. revert out Hout.
  induction (label_lines content) as [|l ls IH]; intros out.
  - intros [= <-]. constructor.
  - intros (y & ys & Hy & Hys & ->)%mapM_cons_Some.
    constructor; [|by apply IH].
    pose proof (rewrite_line_reads mapping _ _ Hy) as (_ & _ & Hti).
    split; [by apply tidy_not_blank|].
    apply rewrite_line_Some in Hy as (dst & _ & ->).
    rewrite split_join; [done|].
    constructor; [apply str_token|].
    unfold line_coords. pose proof (split_tokens l) as Hall.
    destruct (split l); [constructor|by inversion Hall].
Qed.

(** Scenario A: the one file is rewritten. *)
Lemma rewrite_normalises_the_file_witness :
  ∃ out,
    files (write_text (Scenario.page "page1.txt")
             (Scenario.line "0 0.5 0.5 0.2 0.2") Scenario.fs_A)
      !! Scenario.page "page1.txt"
    = Some (join newline out ++ newline)
    ∧ splitlines (join newline out ++ newline) = out
    ∧ length out = length (label_lines (Scenario.line "2 0.5 0.5 0.2 0.2"))
    ∧ Forall (λ l, blank l = false ∧ l = join (t " ") (split l)) out.
Proof.
  apply (rewrite_normalises_the_file Scenario.mapping_A Scenario.fs_A _
           (Scenario.page "page1.txt") (Scenario.line "2 0.5 0.5 0.2 0.2"));
    reflexivity.
Defined.

End RemapperFurther.

Section CommandLineProperties.
Import Py FS Remap RemapMain.



(** X10: in the mapping [main] builds from the [--map] pairs, a source ID
    given more than once keeps the destination of its last pair, and a
    source ID never given is no key. *)
Theorem last_map_option_wins (pairs : list (Z * Z)) (k : Z) :
  dict_of pairs !! k
  = snd <$> List.last (Some <$> filter (λ kv, kv.1 = k) pairs) None.
Proof. apply dict_of_lookup. Qed.

(** X11: however [main] ends, the directories and the set of files stay,
    every write is of a label file of one of the splits, and when it ends
    normally the line it prints states the number of writes. *)
Theorem main_reports_its_writes
    (base_dir : string) (splits : list string) (pairs : list (Z * Z))
    (fs : filesystem) :
  dirs (main base_dir splits pairs fs).1 = dirs fs
  ∧ dom (files (main base_dir splits pairs fs).1) = dom (files fs)
  ∧ ∃ ws,
      writes (main base_dir splits pairs fs).1 = writes fs ++ ws
      ∧ (∀ p, p ∈ ws →
           ∃ split, split ∈ splits ∧ p ∈ glob_txt fs (labels_dir_of base_dir split))
      ∧ (∀ p, p ∉ ws → files (main base_dir splits pairs fs).1 !! p = files fs !! p)
      ∧ (∀ line, (main base_dir splits pairs fs).2 = Ok line →
           line = "Rewrote " +:+ text_string (str (Z.of_nat (length ws)))
                    +:+ " label files.").
Proof.
  unfold main.
  destruct (remap_splits base_dir splits (dict_of pairs) 0 fs) as [fs' r] eqn:Hrun.
  apply remap_splits_frame in Hrun as (Hd & Hdom & ws & Hws & Hin & Ho & Hn).
  destruct r as [touched|e]; simpl.
  - split_and!; [done..|]. exists ws. split_and!; [done..|].
    intros line [= <-]. by rewrite (Hn touched eq_refl).
  - split_and!; [done..|]. exists ws. split_and!; [done..|]. by intros line.
Qed.

End CommandLineProperties.

Section RepeatedRuns.
Import Py FS Remap.

(** X12: two runs of [remap_file] compose. When every class ID of the file is
    a key of the first mapping and every destination it gets is a key of the
    second, both runs return normally and the file then reads as the old one
    with every class ID sent through the first mapping and then the second;
    the coordinate tokens are the old ones. *)
Theorem remap_file_twice_composes
    (mapping1 mapping2 : gmap Z Z) (fs : filesystem) (path : string)
    (content : text) :
  files fs !! path = Some content →
  Forall (λ l, ∃ dst, line_dst mapping1 l = Some dst ∧ is_Some (mapping2 !! dst))
    (label_lines content) →
  ∃ fs1 fs2 changed1 changed2 content2,
    remap_file path mapping1 fs = (fs1, Ok changed1)
    ∧ remap_file path mapping2 fs1 = (fs2, Ok changed2)
    ∧ files fs2 !! path = Some content2
    ∧ line_id <$> label_lines content2
      = (λ l, line_dst mapping1 l ≫= (mapping2 !!.)) <$> label_lines content
    ∧ line_coords <$> label_lines content2 = line_coords <$> label_lines content.
Proof.
  intros Hfile Hboth.
  assert (fully_mapped mapping1 content) as Hmapped1.
  { eapply Forall_impl; [exact Hboth|]. intros l (dst & -> & _). by eexists. }
  destruct (remap_file_run mapping1 fs path content Hfile Hmapped1)
    as (fs1 & content1 & Hrun1 & Hfile1 & Hids1 & Hcos1).
  assert (line_dst mapping2 <$> label_lines content1
          = (λ l, line_dst mapping1 l ≫= (mapping2 !!.)) <$> label_lines content)
    as Hdst2.
  { rewrite line_dst_fmap, Hids1. by rewrite <- list_fmap_compose. }
  assert (fully_mapped mapping2 content1) as Hmapped2.
  { unfold fully_mapped.
    assert (Forall is_Some (line_dst mapping2 <$> label_lines content1)) as Hsome.
    { rewrite Hdst2, Forall_fmap. eapply Forall_impl; [exact Hboth|].
      intros l (dst & Hdst & Hkey). simpl. by rewrite Hdst. }
    rewrite Forall_fmap in Hsome. eapply Forall_impl; [exact Hsome|]. done. }
  destruct (remap_file_run mapping2 fs1 path content1 Hfile1 Hmapped2)
    as (fs2 & content2 & Hrun2 & Hfile2 & Hids2 & Hcos2).
  exists fs1, fs2, (needs_rewrite mapping1 content),
    (needs_rewrite mapping2 content1), content2.
  split_and!; [done..| |]; congruence.
Qed.

(** The swap of scenario C's mapping, run after it on the first file. *)
Lemma remap_file_twice_composes_witness :
  ∃ fs1 fs2 changed1 changed2 content2,
    remap_file (Scenario.page "page1.txt") Scenario.mapping_C Scenario.fs_C
    = (fs1, Ok changed1)
    ∧ remap_file (Scenario.page "page1.txt") {[ 0 := 2; 2 := 1 ]} fs1
      = (fs2, Ok changed2)
    ∧ files fs2 !! Scenario.page "page1.txt" = Some content2
    ∧ line_id <$> label_lines content2
      = (λ l, line_dst Scenario.mapping_C l ≫= (({[ 0 := 2; 2 := 1 ]} : gmap Z Z) !!.))
          <$> label_lines Scenario.content_C1
    ∧ line_coords <$> label_lines content2
      = line_coords <$> label_lines Scenario.content_C1.
Proof.
  apply (remap_file_twice_composes Scenario.mapping_C {[ 0 := 2; 2 := 1 ]}
           Scenario.fs_C (Scenario.page "page1.txt") Scenario.content_C1).
  - reflexivity.
  - replace (label_lines Scenario.content_C1)
      with [t "2 0.5 0.5 0.2 0.2"; t "1 0.1 0.1 0.1 0.1"]
      by (vm_compute; reflexivity).
    constructor; [|constructor; [|constructor]].
    + exists 0. split; [reflexivity|by eexists].
    + exists 2. split; [reflexivity|by eexists].
Defined.

(** X13: a second run under the same mapping is no safe repeat. When the
    first run sends some class ID of the file to a destination that is no key
    of the mapping, the first run returns normally and the second raises the
    unknown-class-ID error for that destination, at the first record where
    this happens, and writes nothing. *)
Theorem rerun_needs_destinations_as_keys
    (mapping : gmap Z Z) (fs : filesystem) (path : string) (content : text)
    (before after : list text) (l : text) (dst : Z) :
  files fs !! path = Some content →
  fully_mapped mapping content →
  label_lines content = before ++ l :: after →
  Forall (λ l, ∃ d, line_dst mapping l = Some d ∧ is_Some (mapping !! d)) before →
  line_dst mapping l = Some dst →
  mapping !! dst = None →
  ∃ fs1,
    remap_file path mapping fs = (fs1, Ok true)
    ∧ remap_file path mapping fs1 = (fs1, Raise (UnknownClassId path dst)).
Proof.
  intros Hfile Hmapped Hlines Hbefore Hl Hkey.
  destruct (remap_file_run mapping fs path content Hfile Hmapped)
    as (fs1 & content1 & Hrun1 & Hfile1 & Hids1 & _).
  assert (needs_rewrite mapping content = true) as Hneeds.
  { unfold needs_rewrite. apply existsb_exists. exists l. split.
    - apply list_elem_of_In. rewrite Hlines. apply elem_of_app. right. left.
    - unfold moved. apply bool_decide_eq_true. rewrite Hl. intros Hsame.
      unfold line_dst in Hl. rewrite <- Hsame in Hl. simpl in Hl. congruence. }
  rewrite Hneeds in Hrun1. exists fs1. split; [done|].
  rewrite Hlines, fmap_app, fmap_cons in Hids1.
  apply fmap_app_inv in Hids1 as (before1 & rest1 & Hb1 & Hrest1 & Hlines1).
  symmetry in Hrest1.
  apply fmap_cons_inv in Hrest1 as (l1 & after1 & Hl1 & _ & ->).
  apply (remap_file_fail mapping fs1 path content1 before1 l1 after1 dst);
    [done|done| |congruence|done].
  assert (Forall (λ o, ∃ d, o = Some d ∧ is_Some (mapping !! d))
            (line_id <$> before1)) as Hsome.
  { rewrite <- Hb1, Forall_fmap. eapply Forall_impl; [exact Hbefore|]. done. }
  rewrite Forall_fmap in Hsome. eapply Forall_impl; [exact Hsome|].
  intros y (d & Hy & Hd). simpl in Hy. unfold line_dst. by rewrite Hy.
Qed.

(** Scenario A run twice: [{2: 0}] has no key 0. *)
Lemma rerun_needs_destinations_as_keys_witness :
  ∃ fs1,
    remap_file (Scenario.page "page1.txt") Scenario.mapping_A Scenario.fs_A
    = (fs1, Ok true)
    ∧ remap_file (Scenario.page "page1.txt") Scenario.mapping_A fs1
      = (fs1, Raise (UnknownClassId (Scenario.page "page1.txt") 0)).
Proof.
  apply (rerun_needs_destinations_as_keys Scenario.mapping_A Scenario.fs_A
           (Scenario.page "page1.txt") (Scenario.line "2 0.5 0.5 0.2 0.2")
           [] [] (t "2 0.5 0.5 0.2 0.2") 0).
  - reflexivity.
  - unfold fully_mapped. by_evaluation.
  - reflexivity.
  - constructor.
  - reflexivity.
  - reflexivity.
Defined.

End RepeatedRuns.

Section GeometryFurther.
Import Py FS Preview.
Import (hints) Num.

(** X14: over rationals the corners [denorm_box] returns satisfy
    [0 <= x0], [0 <= y0], [x1 <= width], [y1 <= height], whatever the box and
    the image size, and each corner is the unclamped one or the bound. *)
Theorem denorm_box_stays_in_bounds (cx cy w h : Q) (W H : Z) :
  ∃ x0 y0 x1 y1 : Q,
    denorm_box cx cy w h W H = Ok (x0, y0, x1, y1)
    ∧ (0 <= x0 ∧ 0 <= y0 ∧ x1 <= inject_Z W ∧ y1 <= inject_Z H)%Q
    ∧ (x0 = 0 ∨ x0 = (cx - w / 2) * inject_Z W)%Q
    ∧ (y0 = 0 ∨ y0 = (cy - h / 2) * inject_Z H)%Q
    ∧ (x1 = inject_Z W ∨ x1 = (cx + w / 2) * inject_Z W)%Q
    ∧ (y1 = inject_Z H ∨ y1 = (cy + h / 2) * inject_Z H)%Q.
Proof.
  rewrite denorm_box_exact. unfold denormalize_formula.
  eexists _, _, _, _. split; [done|].
  split; [|split_and!].
  - split_and!; [apply Q.le_max_l..|apply Q.le_min_l|apply Q.le_min_l].
  - unfold Qmax, GenericMinMax.gmax. destruct (_ ?= _)%Q; auto.
  - unfold Qmax, GenericMinMax.gmax. destruct (_ ?= _)%Q; auto.
  - unfold Qmin, GenericMinMax.gmin. destruct (_ ?= _)%Q; auto.
  - unfold Qmin, GenericMinMax.gmin. destruct (_ ?= _)%Q; auto.
Qed.

(** X15: the clamps do not order the corners. Over rationals, for a box that
    lies left of the image ([cx + w/2 < 0]) and a positive width,
    [denorm_box] returns [x0 = 0] or more and a negative [x1]: a rectangle
    whose right edge is left of its left edge. *)
Theorem denorm_box_may_invert (cx cy w h : Q) (W H : Z) :
  0 < W → (cx + w / 2 < 0)%Q →
  ∃ x0 y0 x1 y1 : Q,
    denorm_box cx cy w h W H = Ok (x0, y0, x1, y1)
    ∧ (x1 == (cx + w / 2) * inject_Z W ∧ x1 < 0 ∧ 0 <= x0)%Q.
Proof.
  intros HW Hleft. rewrite denorm_box_exact. unfold denormalize_formula.
  eexists _, _, _, _. split; [done|].
  assert (0 < inject_Z W)%Q as HWq.
  { change 0%Q with (inject_Z 0). by rewrite <- Zlt_Qlt. }
  assert ((cx + w / 2) * inject_Z W < 0)%Q as Hneg.
  { pose proof (Qmult_lt_compat_r _ _ _ HWq Hleft) as Hlt.
    by rewrite Qmult_0_l in Hlt. }
  assert ((cx + w / 2) * inject_Z W <= inject_Z W)%Q as Hle.
  { apply Qlt_le_weak. by eapply Qlt_trans. }
  split_and!.
  - by apply Q.min_r.
  - by rewrite Q.min_r.
  - apply Q.le_max_l.
Qed.

(** A box centred at [-1] on a 100 by 50 image. *)
Lemma denorm_box_may_invert_witness :
  ∃ x0 y0 x1 y1 : Q,
    denorm_box (-1)%Q (1 # 2)%Q (1 # 5)%Q (1 # 5)%Q 100 50 = Ok (x0, y0, x1, y1)
    ∧ (x1 == (-1 + (1 # 5) / 2) * inject_Z 100 ∧ x1 < 0 ∧ 0 <= x0)%Q.
Proof.
  apply (denorm_box_may_invert (-1)%Q (1 # 2)%Q (1 # 5)%Q (1 # 5)%Q 100 50);
    reflexivity.
Defined.

(** X16: in binary64, whatever the coordinates (infinities and NaN
    included), the [x0] and [y0] that [denorm_box] returns compare [>= 0.0];
    so neither is negative and neither is a NaN. *)
Theorem denorm_box_binary64_low_corner
    (cx cy w h : float) (W H : Z) (x0 y0 x1 y1 : float) :
  denorm_box cx cy w h W H = Ok (x0, y0, x1, y1) →
  PrimFloat.leb 0 x0 = true ∧ PrimFloat.leb 0 y0 = true.
Proof.
  unfold denorm_box.
  destruct (Num.of_int W) as [fW|]; [|done].
  destruct (Num.of_int H) as [fH|]; [|done].
  intros [= <- <- _ _]. split; apply binary64_max_zero.
Qed.

(** A box whose centre is not a number, on a 100 by 50 image. *)
Lemma denorm_box_binary64_low_corner_witness :
  PrimFloat.leb 0 0 = true ∧ PrimFloat.leb 0 18.75 = true.
Proof.
  apply (denorm_box_binary64_low_corner nan 0.5%float 0.25%float 0.25%float
           100 50 0%float 18.75%float 100%float 31.25%float).
  reflexivity.
Defined.



End GeometryFurther.

Section SamplingFurther.
Import Py FS Preview.

(** X18: with a generator whose draws below [n] are below [n], the paths
    [pick_label_files] returns, shuffled or not, are label files of the
    directory, no path twice; there are [min(count, n)] of them for a count
    that is not negative, and for a negative count the last [-count] of the
    [n] files are left out instead. *)
Theorem picked_files_are_label_files
    (rng : Type) (randbelow : nat → rng → nat * rng)
    (fs : filesystem) (labels_dir : string) (names : list string)
    (count : Z) (randomize : bool) (g : rng) :
  (∀ n g, (0 < n)%nat → ((randbelow n g).1 < n)%nat) →
  dirs fs !! labels_dir = Some names →
  NoDup names →
  NoDup (pick_label_files rng randbelow fs labels_dir count randomize g).1
  ∧ (∀ p, p ∈ (pick_label_files rng randbelow fs labels_dir count randomize g).1 →
       ∃ name, p = path_join labels_dir name ∧ name ∈ names
               ∧ endswith name ".txt" = true)
  ∧ Z.of_nat (length (pick_label_files rng randbelow fs labels_dir count randomize g).1)
    = (if count <? 0
       then Z.max 0 (Z.of_nat (length (glob_txt fs labels_dir)) + count)
       else Z.min count (Z.of_nat (length (glob_txt fs labels_dir)))).
Proof.
  intros _ Hdir Hnames.
  destruct (picked_from rng randbelow fs labels_dir count randomize g)
    as (files & Hperm & ->).
  pose proof (glob_txt_NoDup fs labels_dir names Hdir Hnames) as Hnd.
  split_and!.
  - apply (sublist_NoDup _ files); [by rewrite Hperm|apply slice_to_sublist].
  - intros p Hp.
    assert (p ∈ glob_txt fs labels_dir) as Hin.
    { rewrite <- Hperm. apply (elem_of_sublist (slice_to files count)); [done|].
      apply slice_to_sublist. }
    unfold glob_txt in Hin. rewrite Hdir in Hin.
    apply list_elem_of_fmap in Hin as (name & -> & Hname).
    apply list_elem_of_filter in Hname as [Hext Hname]. by exists name.
  - rewrite slice_to_length, (Permutation_length Hperm). reflexivity.
Qed.

(** Scenario D, shuffled, [count = -1]: two of the three label files. *)
Lemma picked_files_are_label_files_witness :
  NoDup (pick_label_files Z Scenario.lcg_randbelow Scenario.fs_D
           Scenario.preview_labels_dir (-1) true 7).1
  ∧ (∀ p, p ∈ (pick_label_files Z Scenario.lcg_randbelow Scenario.fs_D
                 Scenario.preview_labels_dir (-1) true 7).1 →
       ∃ name, p = path_join Scenario.preview_labels_dir name
               ∧ name ∈ ["c.txt"; "a.txt"; "b.txt"]
               ∧ endswith name ".txt" = true)
  ∧ Z.of_nat (length (pick_label_files Z Scenario.lcg_randbelow Scenario.fs_D
                        Scenario.preview_labels_dir (-1) true 7).1)
    = Z.max 0 (Z.of_nat (length (glob_txt Scenario.fs_D Scenario.preview_labels_dir))
               + -1).
Proof.
  apply (picked_files_are_label_files Z Scenario.lcg_randbelow Scenario.fs_D
           Scenario.preview_labels_dir ["c.txt"; "a.txt"; "b.txt"] (-1) true 7).
  - intros n g Hn. unfold Scenario.lcg_randbelow. simpl.
    pose proof (Z.mod_pos_bound g (Z.of_nat n) ltac:(lia)). lia.
  - reflexivity.
  - by_evaluation.
Defined.

(** X19: the head of [main] ends with the no-label-files error when [count]
    is 0, although the directory may hold label files, and when the
    directory holds none or does not exist; with a positive count and a
    label file in the directory it returns a selection that is not empty. *)
Theorem no_selection_is_an_error
    (rng : Type) (seed_rng : Z → rng) (randbelow : nat → rng → nat * rng)
    (fs : filesystem) (base_dir split : string) (count : Z) (randomize : bool)
    (seed : Z) (g : rng) :
  (count = 0 ∨ glob_txt fs (path_join (path_join base_dir split) "labels") = [] →
   (main_selection rng seed_rng randbelow fs base_dir split count randomize seed g).1
   = Raise (NoLabelFiles (path_join (path_join base_dir split) "labels")))
  ∧ (0 < count →
     glob_txt fs (path_join (path_join base_dir split) "labels") ≠ [] →
     ∃ selected,
       (main_selection rng seed_rng randbelow fs base_dir split count randomize seed g).1
       = Ok selected
       ∧ selected ≠ [])
  ∧ message (NoLabelFiles (path_join (path_join base_dir split) "labels"))
    = Some ("No label files found in "
              +:+ path_join (path_join base_dir split) "labels").
Proof.
  unfold main_selection.
  destruct (picked_from rng randbelow fs
              (path_join (path_join base_dir split) "labels") count randomize
              (seed_rng seed)) as (files & Hperm & Hpick).
  destruct (pick_label_files rng randbelow fs _ count randomize (seed_rng seed))
    as [selected g'] eqn:Hrun.
  simpl in Hpick. subst selected.
  pose proof (slice_to_length files count) as Hlen.
  split_and!; [| |done].
  - intros Hcase.
    assert (slice_to files count = []) as ->; [|done].
    destruct Hcase as [->|Hempty].
    + apply length_zero_iff_nil. simpl in Hlen. lia.
    + rewrite Hempty in Hperm. apply Permutation_nil_r in Hperm as ->.
      unfold slice_to. apply take_nil.
  - intros Hcount Hfiles.
    assert (files ≠ []) as Hne.
    { intros ->. by apply Permutation_nil in Hperm. }
    rewrite (proj2 (Z.ltb_ge count 0)) in Hlen by lia.
    destruct (slice_to files count) as [|p ps] eqn:Hs.
    + simpl in Hlen. destruct files; [done|]. simpl in Hlen. lia.
    + by exists (p :: ps).
Qed.

(** Scenario D with [count = 0]: three label files, and the error. *)
Lemma no_selection_is_an_error_witness :
  (main_selection Z Scenario.lcg_seed Scenario.lcg_randbelow Scenario.fs_D
     "data" "validation" 0 false 0 0).1
  = Raise (NoLabelFiles (path_join (path_join "data" "validation") "labels")).
Proof.
  apply (proj1 (no_selection_is_an_error Z Scenario.lcg_seed Scenario.lcg_randbelow
                  Scenario.fs_D "data" "validation" 0 false 0 0)).
  by left.
Defined.

End SamplingFurther.

Section RenderingProperties.
Import Py FS Preview PreviewMain.
Import (hints) Num.

(** X20: for a label file [<base>.txt] with a base name that is not empty,
    the stem is [<base>]: the preview is written to [<base>.jpg] under the
    output directory, whatever the format of the image, and the image is
    looked up under [<base>]. A label file named [.txt] alone keeps its whole
    name as stem. *)
Theorem label_file_stem
    (fs : filesystem) (labels_dir images_dir output_dir base : string) :
  base ≠ "" → "/"%char ∉ t base →
  stem (path_join labels_dir (base +:+ ".txt")) = base
  ∧ output_of output_dir (path_join labels_dir (base +:+ ".txt"))
    = path_join output_dir (base +:+ ".jpg")
  ∧ find_image fs images_dir (stem (path_join labels_dir (base +:+ ".txt")))
    = find_image fs images_dir base
  ∧ stem (path_join labels_dir ".txt") = ".txt".
Proof.
  intros Hne Hslash.
  assert (stem (path_join labels_dir (base +:+ ".txt")) = base) as Hstem.
  { unfold stem. rewrite name_of_join.
    - rewrite t_app, stem_of_txt; [apply text_string_t|].
      destruct base; [done|]. done.
    - rewrite t_app. apply not_elem_of_app. split; [done|].
      apply (bool_decide_unpack _). vm_compute. exact I. }
  split_and!; [done|unfold output_of; by rewrite Hstem|by rewrite Hstem|].
  unfold stem. rewrite name_of_join; [done|].
  apply (bool_decide_unpack _). vm_compute. exact I.
Qed.

(** Scenario D's [b.txt], whose image is a PNG. *)
Lemma label_file_stem_witness :
  stem (path_join Scenario.preview_labels_dir ("b" +:+ ".txt")) = "b"
  ∧ output_of "out/validation" (path_join Scenario.preview_labels_dir ("b" +:+ ".txt"))
    = path_join "out/validation" ("b" +:+ ".jpg")
  ∧ find_image Scenario.fs_D Scenario.preview_images_dir
      (stem (path_join Scenario.preview_labels_dir ("b" +:+ ".txt")))
    = find_image Scenario.fs_D Scenario.preview_images_dir "b"
  ∧ stem (path_join Scenario.preview_labels_dir ".txt") = ".txt".
Proof.
  apply (label_file_stem Scenario.fs_D Scenario.preview_labels_dir
           Scenario.preview_images_dir "out/validation" "b").
  - discriminate.
  - by_evaluation.
Defined.

(** X21: the loop of [main] writes the previews of the selected label files
    in order and stops at the first file that fails: the previews written
    are those of the files before it, each from the image [find_image]
    resolves for its stem and to [<stem>.jpg]; a normal end means every
    selected file has its preview, and an exception is the one that
    [parse_labels], [find_image] or [draw_boxes] raised for the file at which
    the loop stopped. *)
Theorem render_each_stops_at_first_failure
    (F : Type) (arith : Num.Arith F) (image_size : string → Z * Z)
    (fs : filesystem) (images_dir output_dir : string)
    (class_names selected : list string) :
  let run := render_each image_size fs images_dir output_dir class_names selected in
  output_path <$> run.1 = output_of output_dir <$> take (length run.1) selected
  ∧ Forall2 (λ p r, find_image fs images_dir (stem p) = Ok (source_image r))
      (take (length run.1) selected) run.1
  ∧ (run.2 = Ok () → length run.1 = length selected)
  ∧ (∀ e, run.2 = Raise e →
       ∃ p, selected !! length run.1 = Some p
            ∧ (parse_labels (F:=F) fs p = Raise e
               ∨ find_image fs images_dir (stem p) = Raise e
               ∨ ∃ boxes image,
                   parse_labels fs p = Ok boxes
                   ∧ find_image fs images_dir (stem p) = Ok image
                   ∧ draw_boxes (image_size image).1 (image_size image).2
                       boxes class_names = Raise e)).
Proof.
  cbv zeta. induction selected as [|p selected IH].
  - simpl. split_and!; [done|constructor|done|done].
  - cbn [render_each].
    destruct (parse_labels fs p) as [boxes|e1] eqn:Hparse.
    2:{ simpl. split_and!; [done|constructor|done|].
        intros e [= <-]. exists p. split; [done|by left]. }
    destruct (find_image fs images_dir (stem p)) as [image|e2] eqn:Hfind.
    2:{ simpl. split_and!; [done|constructor|done|].
        intros e [= <-]. exists p. split; [done|right; by left]. }
    destruct (image_size image) as [width height] eqn:Hsize.
    destruct (draw_boxes width height boxes class_names) as [annotations|e3] eqn:Hdraw.
    2:{ simpl. split_and!; [done|constructor|done|].
        intros e [= <-]. exists p. split; [done|right; right].
        exists boxes, image. by rewrite Hsize. }
    destruct (render_each image_size fs images_dir output_dir class_names selected)
      as [later r] eqn:Hrest.
    simpl in IH |- *. destruct IH as (Hout & Hsrc & Hok & Herr).
    split_and!.
    + f_equal. exact Hout.
    + by constructor.
    + intros Hr. by rewrite Hok.
    + done.
Qed.

End RenderingProperties.

Section AcrossTheTools.
Import Py FS Remap Preview.
Import (hints) Num.

(** X22: the previewer reads a remapped file as the old one, relabelled. When
    [remap_file] returns normally on a file that [parse_labels] could read,
    [parse_labels] reads the file afterwards too, and returns the same
    records in the same order, each with its class ID sent through the
    mapping and its four numbers unchanged; this holds whether the file was
    rewritten or left alone. *)
Theorem preview_reads_the_remapped_labels
    (F : Type) (arith : Num.Arith F) (mapping : gmap Z Z) (fs fs' : filesystem)
    (path : string) (changed : bool) (boxes : list (label_record (F:=F))) :
  remap_file path mapping fs = (fs', Ok changed) →
  parse_labels fs path = Ok boxes →
  ∃ boxes',
    parse_labels fs' path = Ok boxes'
    ∧ Forall2 (relabelled mapping) boxes boxes'.
Proof.
  intros Hrun Hparse.
  apply remap_file_Ok_inv in Hrun as (content & out & Hfile & Hout & -> & ->).
  unfold parse_labels, read_text in Hparse. rewrite Hfile in Hparse.
  pose proof (parse_lines_nonblank _ _ _ Hparse) as Hrecords.
  change (filter (λ l, blank l = false) (splitlines (strip content)))
    with (label_lines content) in Hrecords.
  assert (Forall (λ l, blank l = false) (label_lines content)) as Hnb.
  { apply Forall_forall. intros l Hl. by apply list_elem_of_filter in Hl as [? _]. }
  destruct (needs_rewrite mapping content) eqn:Hneeds.
  - destruct (rewrite_lines_read mapping _ _ Hout) as (_ & _ & Htidy).
    assert (out ≠ []) as Hne.
    { intros ->. apply rewrite_lines_length in Hout.
      unfold needs_rewrite in Hneeds. destruct (label_lines content); done. }
    unfold parse_labels, read_text, write_text. cbn [files].
    rewrite lookup_insert_eq. unfold written.
    rewrite splitlines_written by done.
    by apply (parse_lines_rewritten mapping (label_lines content) out [] [] boxes).
  - exists boxes. split.
    + unfold parse_labels, read_text. by rewrite Hfile.
    + apply Forall_Forall2_diag.
      apply (parse_lines_fixed mapping (label_lines content) [] boxes);
        [|done|constructor].
      apply Forall_forall. intros l Hl. split.
      * clear -Hout Hl. revert out Hout.
        induction (label_lines content) as [|l0 ls IH]; intros out Hout;
          [by apply elem_of_nil in Hl|].
        apply mapM_cons_Some in Hout as (y & ys & Hy & Hys & ->).
        apply elem_of_cons in Hl as [->|Hl]; [|by eapply IH].
        apply rewrite_line_Some in Hy as (dst & -> & _). by eexists.
      * destruct (moved mapping l) eqn:Hmv; [|done].
        unfold needs_rewrite in Hneeds.
        assert (existsb (moved mapping) (label_lines content) = true) as Hex.
        { apply existsb_exists. exists l. split; [by apply list_elem_of_In|done]. }
        congruence.
Qed.

(** Scenario A in binary64: the record of class 2 is read back as class 0. *)
Lemma preview_reads_the_remapped_labels_witness :
  ∃ boxes',
    parse_labels
      (write_text (Scenario.page "page1.txt")
         (Scenario.line "0 0.5 0.5 0.2 0.2") Scenario.fs_A)
      (Scenario.page "page1.txt") = Ok boxes'
    ∧ Forall2 (relabelled Scenario.mapping_A)
        [(2, 0.5%float, 0.5%float, Scenario.one_fifth, Scenario.one_fifth)] boxes'.
Proof.
  apply (preview_reads_the_remapped_labels float Num.binary64 Scenario.mapping_A
           Scenario.fs_A _ (Scenario.page "page1.txt") true); reflexivity.
Defined.

(** X23: once [remap_file] has rewritten a file, [parse_labels] reads it or
    fails only for a line whose number of tokens is not five or for a number
    [float] cannot read: the file is there, every line starts with an
    integer, and no line is of white space only, so the lines of white space
    that stop [parse_labels] on the old file are gone. *)
Theorem rewritten_file_has_no_blank_line
    (F : Type) (arith : Num.Arith F) (mapping : gmap Z Z) (fs fs' : filesystem)
    (path : string) :
  remap_file path mapping fs = (fs', Ok true) →
  (∃ boxes, parse_labels (F:=F) fs' path = Ok boxes)
  ∨ (∃ n, parse_labels (F:=F) fs' path = Raise (UnpackError 5 n)
          ∧ n ≠ 0%nat ∧ n ≠ 5%nat)
  ∨ (∃ token, parse_labels (F:=F) fs' path = Raise (FloatLiteralError token)).
Proof.
  intros Hrun.
  apply remap_file_Ok_inv in Hrun as (content & out & Hfile & Hout & Hneeds & ->).
  destruct (rewrite_lines_read mapping _ _ Hout) as (_ & _ & Htidy).
  assert (out ≠ []) as Hne.
  { intros ->. apply rewrite_lines_length in Hout.
    unfold needs_rewrite in Hneeds. destruct (label_lines content); done. }
  unfold parse_labels, read_text, write_text. cbn [files].
  rewrite lookup_insert_eq. unfold written.
  rewrite splitlines_written by done.
  destruct (parse_lines out []) as [boxes|e] eqn:Hparse; [left; by eexists|right].
  destruct (parse_lines_failures out [] e) as [(n & -> & Hn)|(token & ->)];
    [by eapply rewritten_lines_ids|done|left; by exists n|right; by exists token].
Qed.

(** The file with a line of two spaces, under the swap of 0 and 1. *)
Lemma rewritten_file_has_no_blank_line_witness :
  (∃ boxes,
      parse_labels (F:=float)
        (write_text (path_join Scenario.preview_labels_dir "a.txt")
           (Scenario.line "1 0.5 0.5 0.2 0.2" ++ Scenario.line "0 0.5 0.5 0.2 0.2")
           Scenario.fs_spaced)
        (path_join Scenario.preview_labels_dir "a.txt") = Ok boxes)
  ∨ (∃ n,
        parse_labels (F:=float)
          (write_text (path_join Scenario.preview_labels_dir "a.txt")
             (Scenario.line "1 0.5 0.5 0.2 0.2" ++ Scenario.line "0 0.5 0.5 0.2 0.2")
             Scenario.fs_spaced)
          (path_join Scenario.preview_labels_dir "a.txt") = Raise (UnpackError 5 n)
        ∧ n ≠ 0%nat ∧ n ≠ 5%nat)
  ∨ (∃ token,
        parse_labels (F:=float)
          (write_text (path_join Scenario.preview_labels_dir "a.txt")
             (Scenario.line "1 0.5 0.5 0.2 0.2" ++ Scenario.line "0 0.5 0.5 0.2 0.2")
             Scenario.fs_spaced)
          (path_join Scenario.preview_labels_dir "a.txt")
        = Raise (FloatLiteralError token)).
Proof.
  apply (rewritten_file_has_no_blank_line float Num.binary64 {[ 0 := 1; 1 := 0 ]}
           Scenario.fs_spaced _ (path_join Scenario.preview_labels_dir "a.txt")).
  reflexivity.
Defined.

End AcrossTheTools.

Section GeometryBinary64.
Import Py FS Preview.
Import (hints) Num.

(** X24: in binary64, whatever the coordinates (infinities and NaN
    included), the [x1] and [y1] that [denorm_box] returns compare
    [<= float(width)] and [<= float(height)]; so neither lies beyond the image
    and neither is a NaN. *)
Theorem denorm_box_binary64_high_corner
    (cx cy w h : float) (W H : Z) (x0 y0 x1 y1 : float) :
  denorm_box cx cy w h W H = Ok (x0, y0, x1, y1) →
  ∃ fW fH : float,
    Num.of_int W = Some fW ∧ Num.of_int H = Some fH
    ∧ PrimFloat.leb x1 fW = true ∧ PrimFloat.leb y1 fH = true.
Proof.
  unfold denorm_box.
  destruct (Num.of_int W) as [fW|] eqn:HW; [|done].
  destruct (Num.of_int H) as [fH|] eqn:HH; [|done].
  intros [= _ _ <- <-]. exists fW, fH. split_and!; [done|done| |].
  - apply binary64_min_bound. by eapply binary64_of_int_ordered.
  - apply binary64_min_bound. by eapply binary64_of_int_ordered.
Qed.

(** A box whose centre is not a number, on a 100 by 50 image. *)
Lemma denorm_box_binary64_high_corner_witness :
  ∃ fW fH : float,
    Num.of_int 100 = Some fW ∧ Num.of_int 50 = Some fH
    ∧ PrimFloat.leb 100 fW = true ∧ PrimFloat.leb 31.25 fH = true.
Proof.
  apply (denorm_box_binary64_high_corner nan 0.5%float 0.25%float 0.25%float
           100 50 0%float 18.75%float 100%float 31.25%float).
  reflexivity.
Defined.

End GeometryBinary64.
